(** * generate-ships.py: the starfighter generator

    A shallow embedding of [generate-ships.py].  The script draws style
    choices and dimensions from Python's global random stream and asks
    Blender's [bmesh] operators to build the corresponding solids.

    - Python floats are modelled as exact rationals ([Q]); rounding is not
      modelled.  An angle is kept in degrees, as the source writes it
      before calling [radians].
    - The global random stream is an explicit state of any type that
      implements [RandomSource]: [seed], [random] and [_randbelow] with the
      ranges Python documents for them.
    - A [bmesh] is the sequence of operator calls made on it; the value a
      call returns is named by the position of that call.  Blender's own
      geometry kernel stays outside the model. *)

From Stdlib Require Import QArith Qround Qminmax Qabs List String Ascii Bool Arith Lia Lqa.
From Stdlib Require Import NArith DecimalString DecimalN.
Import ListNotations.

Open Scope Q_scope.

(** ** Data model *)

(** [class Material(IntEnum)] *)
Inductive Material : Type :=
| hull
| hull_accent
| hull_dark
| engine_glow
| cockpit.

Definition material_index (m : Material) : nat :=
  match m with
  | hull => 0
  | hull_accent => 1
  | hull_dark => 2
  | engine_glow => 3
  | cockpit => 4
  end.

Definition all_materials : list Material :=
  [hull; hull_accent; hull_dark; engine_glow; cockpit].

Definition Material_eqb (a b : Material) : bool :=
  Nat.eqb (material_index a) (material_index b).

Inductive FuselageStyle : Type := pointed | rounded | angular | pod.
Inductive WingStyle : Type := x_wing | swept | delta | vertical | ring | stub.
Inductive EngineStyle : Type := rear | wing_tip | engine_pod | central.

(** [mathutils.Vector] with three components. *)
Record Vector : Type := Vec { vx : Q; vy : Q; vz : Q }.

Definition vadd (a b : Vector) : Vector :=
  Vec (vx a + vx b) (vy a + vy b) (vz a + vz b).

Inductive Axis : Type := AxisX | AxisY | AxisZ.

(** [radians(d)]: the angle of [d] degrees. *)
Record Angle : Type := radians { degrees : Q }.

(** [mathutils.Matrix] values as the source builds them. *)
Inductive Matrix : Type :=
| Identity
| Rotation (angle : Angle) (size : nat) (axis : Axis)
| Translation (v : Vector)
| Scale (factor : Q) (size : nat) (axis : Vector)
| MatMul (a b : Matrix).

Infix "@@" := MatMul (at level 40, left associativity).

(** Geometry an operator is applied to.  [result_verts k] is
    [result['verts']] of the call at position [k] of the mesh; [new_vert k]
    and [new_face k] are the element the call at position [k] created. *)
Inductive Geom : Type :=
| bm_verts
| bm_edges
| bm_faces
| result_verts (k : nat)
| result_geom_verts (k : nat)
| new_vert (k : nat)
| new_face (k : nat)
| link_faces (verts : Geom).

(** One call on the mesh. *)
Inductive BMOp : Type :=
| create_cone (cap_ends cap_tris : bool) (segments : nat)
              (radius1 radius2 depth : Q) (matrix : Matrix)
| create_cube (size : Q) (matrix : Matrix)
| create_icosphere (subdivisions : nat) (radius : Q) (matrix : Matrix)
| bevel (geom : Geom) (offset : Q) (segments : nat)
| scale (vec : Vector) (verts : Geom)
| rotate (verts : Geom) (cent : Vector) (matrix : Matrix)
| translate (verts : Geom) (vec : Vector)
| verts_new (co : Vector)
| faces_new (verts : list Geom)
| extrude_face_region (geom : list Geom)
| set_material_index (faces : Geom) (m : Material).

Definition BMesh : Type := list BMOp.

(** ** State monad over the random stream and the mesh *)

Definition State (S A : Type) : Type := S -> A * S.

Definition ret {S A} (a : A) : State S A := fun s => (a, s).

Definition bind {S A B} (m : State S A) (f : A -> State S B) : State S B :=
  fun s => let (a, s') := m s in f a s'.

Notation "x <- m ;; k" := (bind m (fun x => k))
  (at level 61, m at next level, right associativity).
Notation "m ;;; k" := (bind m (fun _ => k))
  (at level 61, right associativity).

Fixpoint for_each {S A} (l : list A) (body : A -> State S unit) : State S unit :=
  match l with
  | [] => ret tt
  | x :: l' => body x ;;; for_each l' body
  end.

(** ** The random stream *)

(** What the script uses of Python's [random] module: [seed_state a] is
    the state [random.seed(a)] installs, a function of [a] alone;
    [next_random] is one call of [random()], a float in [0, 1);
    [next_below n] is one call of [_randbelow(n)], an index below [n]. *)
Class RandomSource (G : Type) : Type := {
  seed_state : string -> G;
  next_random : G -> Q * G;
  next_below : nat -> G -> nat * G;
  next_random_range : forall g, 0 <= fst (next_random g) < 1;
  next_below_lt : forall n g, (0 < n)%nat -> (fst (next_below n g) < n)%nat
}.

(** [x > y] on floats. *)
Definition Qgtb (x y : Q) : bool := negb (Qle_bool x y).

(** ** colorsys *)

Definition Qltb (x y : Q) : bool := negb (Qle_bool y x).

(** [x % 1.0] *)
Definition Qmod1 (x : Q) : Q := x - inject_Z (Qfloor x).

Definition ONE_THIRD : Q := 1 # 3.
Definition ONE_SIXTH : Q := 1 # 6.
Definition TWO_THIRD : Q := 2 # 3.

(** [colorsys._v] *)
Definition hls_v (m1 m2 hue : Q) : Q :=
  let hue := Qmod1 hue in
  if Qltb hue ONE_SIXTH then m1 + (m2 - m1) * hue * 6.0
  else if Qltb hue 0.5 then m2
  else if Qltb hue TWO_THIRD then m1 + (m2 - m1) * (TWO_THIRD - hue) * 6.0
  else m1.

(** [colorsys.hls_to_rgb] *)
Definition hls_to_rgb (h l s : Q) : Q * Q * Q :=
  if Qeq_bool s 0.0 then (l, l, l)
  else
    let m2 := if Qle_bool l 0.5 then l * (1.0 + s) else l + s - (l * s) in
    let m1 := 2.0 * l - m2 in
    (hls_v m1 m2 (h + ONE_THIRD), hls_v m1 m2 h, hls_v m1 m2 (h - ONE_THIRD)).

Record Color : Type := RGBA { red : Q; green : Q; blue : Q; alpha : Q }.

Definition with_alpha (c : Q * Q * Q) (a : Q) : Color :=
  let '(r, g, b) := c in RGBA r g b a.

(** The inputs of the Principled BSDF node the script sets; [None] is an
    input left at the node's default. *)
Record BSDF : Type := {
  name : Material;
  base_color : Color;
  metallic : option Q;
  roughness : option Q;
  emission_color : option Color;
  emission_strength : option Q
}.

(** Calls made on the finished object. *)
Inductive ObjectOp : Type :=
| origin_set_center_of_mass
| set_location (v : Vector)
| shade_smooth.

(** The object [generate_starfighter] returns. *)
Record Object : Type := {
  mesh : BMesh;
  object_ops : list ObjectOp;
  materials : list BSDF
}.

(** ** The generators *)

Section Generator.

Context {G : Type} {RS : RandomSource G}.

(** The global random stream and the mesh [bm] under construction. *)
Definition World : Type := (G * BMesh)%type.
Definition Gen (A : Type) : Type := State World A.

(** [random()] *)
Definition random : Gen Q :=
  fun w => let (r, g') := next_random (fst w) in (r, (g', snd w)).

(** [uniform(a, b)]: [a + (b - a) * random()] *)
Definition uniform (a b : Q) : Gen Q :=
  r <- random ;; ret (a + (b - a) * r).

(** [choice(seq)] on the non-empty sequence [x :: xs]:
    [seq[_randbelow(len(seq))]]; the index is in range by [next_below_lt]. *)
Definition choice {A} (x : A) (xs : list A) : Gen A :=
  fun w =>
    let (i, g') := next_below (List.length (x :: xs)) (fst w) in
    (nth i (x :: xs) x, (g', snd w)).

(** [seed(a)] *)
Definition seed (a : string) : Gen unit :=
  fun w => (tt, (seed_state a, snd w)).

(** One operator call on [bm]; returns the position that names its result. *)
Definition emit (op : BMOp) : Gen nat :=
  fun w => (List.length (snd w), (fst w, snd w ++ [op])).

Definition add_to_mesh (verts : Geom) (material_index : Material) : Gen unit :=
  emit (set_material_index (link_faces verts) material_index) ;;; ret tt.

Definition fuselage_body (style : FuselageStyle) : Gen unit :=
  match style with
  | pointed =>
      length <- uniform 1.5 2.5 ;;
      width <- uniform 0.4 0.7 ;;
      height <- uniform 0.3 0.5 ;;
      result <- emit (create_cone true false 8 (width * 0.3) width (length * 0.6)
                        (Rotation (radians 90) 4 AxisY)) ;;
      add_to_mesh (result_verts result) hull ;;;
      result <- emit (create_cone true false 8 width (width * 0.7) (length * 0.4)
                        (Translation (Vec ((- length) * 0.5) 0 0) @@
                         Rotation (radians 90) 4 AxisY)) ;;
      add_to_mesh (result_verts result) hull
  | rounded =>
      length <- uniform 1.8 2.8 ;;
      width <- uniform 0.5 0.8 ;;
      result <- emit (create_icosphere 2 width
                        (Scale (length / width / 2) 4 (Vec 1 0 0))) ;;
      add_to_mesh (result_verts result) hull
  | angular =>
      size <- uniform 0.6 1.0 ;;
      emit (create_cube size Identity) ;;;
      emit (bevel bm_edges (size * 0.1) 2) ;;;
      emit (set_material_index bm_faces hull) ;;;
      ret tt
  | pod =>
      radius <- uniform 0.5 0.8 ;;
      result <- emit (create_icosphere 2 radius Identity) ;;
      add_to_mesh (result_verts result) hull ;;;
      stretch <- uniform 1.2 1.8 ;;
      emit (scale (Vec stretch 1 1) bm_verts) ;;;
      ret tt
  end.

Definition create_fuselage : Gen FuselageStyle :=
  style <- choice pointed [rounded; angular; pod] ;;
  fuselage_body style ;;;
  ret style.

Definition add_cockpit_canopy (fuselage_style : FuselageStyle) : Gen unit :=
  r <- random ;;
  if Qgtb r 0.3 then
    canopy_size <- uniform 0.2 0.4 ;;
    y_offset <- uniform 0.1 0.25 ;;
    match fuselage_style with
    | pointed | rounded =>
        x_offset <- uniform (-0.2) 0.3 ;;
        result <- emit (create_icosphere 2 canopy_size
                          (Translation (Vec x_offset y_offset 0))) ;;
        add_to_mesh (result_verts result) cockpit
    | angular | pod =>
        result <- emit (create_cube (canopy_size * 1.5)
                          (Translation (Vec 0 y_offset 0))) ;;
        add_to_mesh (result_verts result) cockpit
    end
  else ret tt.

(** [range(n)] *)
Definition range (n : nat) : list nat := seq 0 n.

(** An [int] used as a float. *)
Definition float (n : nat) : Q := inject_Z (Z.of_nat n).

Definition wings_body (wing_style : WingStyle) : Gen unit :=
  match wing_style with
  | x_wing =>
      wing_length <- uniform 1.5 2.5 ;;
      wing_width <- uniform 0.6 1.0 ;;
      wing_thickness <- uniform 0.03 0.08 ;;
      spread_angle <- uniform 15 35 ;;
      for_each (range 4) (fun i =>
        let angle := if (i <? 2)%nat then spread_angle else - spread_angle in
        let y_sign : Q := if (i mod 2 =? 0)%nat then 1 else -1 in
        x_offset <- uniform (-0.3) 0.1 ;;
        result <- emit (create_cube 1
                          (Translation (Vec x_offset 0 (wing_length / 2)) @@
                           Scale wing_width 4 (Vec 1 0 0) @@
                           Scale wing_thickness 4 (Vec 0 1 0) @@
                           Scale wing_length 4 (Vec 0 0 1))) ;;
        emit (rotate (result_verts result) (Vec 0 0 0)
                (Rotation (radians (angle * y_sign)) 3 AxisX)) ;;;
        emit (translate (result_verts result) (Vec 0 0 0)) ;;;
        add_to_mesh (result_verts result)
          (if (i mod 2 =? 0)%nat then hull else hull_accent))
  | swept =>
      wing_length <- uniform 1.2 2.0 ;;
      wing_width <- uniform 0.8 1.4 ;;
      sweep <- uniform 0.3 0.7 ;;
      for_each [-1; 1] (fun side =>
        v0 <- emit (verts_new (Vec 0 0 (0.2 * side))) ;;
        v1 <- emit (verts_new (Vec ((- wing_width) * sweep) 0 (wing_length * side))) ;;
        v2 <- emit (verts_new (Vec (wing_width * (1 - sweep)) 0 (wing_length * side))) ;;
        v3 <- emit (verts_new (Vec (wing_width * 0.3) 0 (0.3 * side))) ;;
        let verts := [new_vert v0; new_vert v1; new_vert v2; new_vert v3] in
        face <- emit (faces_new (if Qgtb side 0 then verts else rev verts)) ;;
        emit (set_material_index (new_face face) hull_accent) ;;;
        result <- emit (extrude_face_region [new_face face]) ;;
        thickness <- uniform 0.03 0.08 ;;
        emit (translate (result_geom_verts result) (Vec 0 thickness 0)) ;;;
        ret tt)
  | delta =>
      wing_span <- uniform 1.5 2.5 ;;
      wing_length <- uniform 1.0 1.8 ;;
      for_each [-1; 1] (fun side =>
        v0 <- emit (verts_new (Vec (wing_length * 0.5) 0 0)) ;;
        v1 <- emit (verts_new (Vec ((- wing_length) * 0.5) 0 (wing_span * 0.5 * side))) ;;
        v2 <- emit (verts_new (Vec ((- wing_length) * 0.3) 0 (0.1 * side))) ;;
        let verts := [new_vert v0; new_vert v1; new_vert v2] in
        face <- emit (faces_new (if Qgtb side 0 then verts else rev verts)) ;;
        emit (set_material_index (new_face face) hull_accent) ;;;
        result <- emit (extrude_face_region [new_face face]) ;;
        thickness <- uniform 0.04 0.1 ;;
        emit (translate (result_geom_verts result) (Vec 0 thickness 0)) ;;;
        ret tt)
  | vertical =>
      wing_height <- uniform 1.5 2.5 ;;
      wing_width <- uniform 1.0 1.8 ;;
      for_each [-1; 1] (fun side =>
        r <- random ;;
        result <-
          (if Qgtb r 0.5 then
             emit (create_cone true false 6 (wing_height * 0.5) (wing_height * 0.5) 0.05
                     (Translation (Vec 0 0 (wing_width * 0.6 * side)) @@
                      Rotation (radians 90) 4 AxisY))
           else
             emit (create_cube 1
                     (Translation (Vec 0 0 (wing_width * 0.6 * side)) @@
                      Scale 0.05 4 (Vec 0 0 1) @@
                      Scale wing_height 4 (Vec 0 1 0) @@
                      Scale (wing_width * 0.8) 4 (Vec 1 0 0)))) ;;
        add_to_mesh (result_verts result) hull_dark ;;;
        result <- emit (create_cube 1
                          (Translation (Vec 0 0 (wing_width * 0.3 * side)) @@
                           Scale 0.1 4 (Vec 1 0 0) @@
                           Scale 0.1 4 (Vec 0 1 0) @@
                           Scale (wing_width * 0.3) 4 (Vec 0 0 1))) ;;
        add_to_mesh (result_verts result) hull)
  | ring =>
      ring_radius <- uniform 1.2 2.0 ;;
      ring_thickness <- uniform 0.1 0.2 ;;
      result <- emit (create_cone false false 32 ring_radius ring_radius ring_thickness
                        (Rotation (radians 90) 4 AxisY)) ;;
      add_to_mesh (result_verts result) hull_accent ;;;
      result <- emit (create_cone false false 32 (ring_radius * 0.85) (ring_radius * 0.85)
                        (ring_thickness * 1.5)
                        (Rotation (radians 90) 4 AxisY)) ;;
      add_to_mesh (result_verts result) hull_dark
  | stub =>
      wing_length <- uniform 0.5 0.8 ;;
      for_each [-1; 1] (fun side =>
        x_offset <- uniform (-0.2) 0.2 ;;
        width <- uniform 0.4 0.7 ;;
        height <- uniform 0.05 0.12 ;;
        result <- emit (create_cube 1
                          (Translation (Vec x_offset 0 (wing_length * 0.6 * side)) @@
                           Scale width 4 (Vec 1 0 0) @@
                           Scale height 4 (Vec 0 1 0) @@
                           Scale wing_length 4 (Vec 0 0 1))) ;;
        add_to_mesh (result_verts result) hull_accent)
  end.

Definition add_wings : Gen WingStyle :=
  wing_style <- choice x_wing [swept; delta; vertical; ring; stub] ;;
  wings_body wing_style ;;;
  ret wing_style.

Definition is_rear (s : EngineStyle) : bool :=
  match s with rear => true | _ => false end.

Definition is_vertical (s : WingStyle) : bool :=
  match s with vertical => true | _ => false end.

(** The [if]/[elif] chain of [add_engines]: the positions, and the engine
    radius and length after the branch has rescaled them. *)
Definition engine_placement (engine_style : EngineStyle) (wing_style : WingStyle)
    (engine_radius engine_length : Q) : Gen (list Vector * Q * Q) :=
  if is_rear engine_style || is_vertical wing_style then
    num_engines <- choice 1%nat [2%nat; 3%nat] ;;
    let spacing := 0.25 in
    ret (map (fun i =>
                let z_off := (float i - (float num_engines - 1) / 2) * spacing in
                Vec (-0.8) 0 z_off)
             (range num_engines),
         engine_radius, engine_length)
  else
    match engine_style with
    | wing_tip =>
        wing_span <- uniform 1.0 1.8 ;;
        x0 <- uniform (-0.3) 0.1 ;;
        x1 <- uniform (-0.3) 0.1 ;;
        let positions := [Vec x0 0 wing_span; Vec x1 0 (- wing_span)] in
        r <- random ;;
        if Qgtb r 0.5 then
          x2 <- uniform (-0.3) 0.1 ;;
          x3 <- uniform (-0.3) 0.1 ;;
          x4 <- uniform (-0.3) 0.1 ;;
          x5 <- uniform (-0.3) 0.1 ;;
          ret (positions ++
               [Vec x2 (wing_span * 0.3) (wing_span * 0.5);
                Vec x3 ((- wing_span) * 0.3) (wing_span * 0.5);
                Vec x4 (wing_span * 0.3) ((- wing_span) * 0.5);
                Vec x5 ((- wing_span) * 0.3) ((- wing_span) * 0.5)],
               engine_radius, engine_length)
        else ret (positions, engine_radius, engine_length)
    | engine_pod =>
        pod_offset <- uniform 0.5 0.9 ;;
        ret ([Vec (-0.3) 0 pod_offset; Vec (-0.3) 0 (- pod_offset)],
             engine_radius * 1.5, engine_length * 1.5)
    | _ =>
        ret ([Vec (-0.7) 0 0], engine_radius * 2, engine_length * 1.5)
    end.

(** The body of the [for pos in positions] loop: housing, then glow. *)
Definition add_engine (engine_radius engine_length : Q) (pos : Vector) : Gen unit :=
  result <- emit (create_cone true false 12 engine_radius (engine_radius * 0.8)
                    engine_length
                    (Translation pos @@ Rotation (radians 90) 4 AxisY)) ;;
  add_to_mesh (result_verts result) hull_dark ;;;
  result <- emit (create_cone true false 12 (engine_radius * 0.7) (engine_radius * 0.5)
                    (engine_length * 0.3)
                    (Translation (vadd pos (Vec ((- engine_length) * 0.5) 0 0)) @@
                     Rotation (radians 90) 4 AxisY)) ;;
  add_to_mesh (result_verts result) engine_glow.

Definition add_engines (wing_style : WingStyle) : Gen unit :=
  engine_style <- choice rear [wing_tip; engine_pod; central] ;;
  engine_radius <- uniform 0.1 0.25 ;;
  engine_length <- uniform 0.3 0.6 ;;
  placed <- engine_placement engine_style wing_style engine_radius engine_length ;;
  let '(positions, engine_radius, engine_length) := placed in
  for_each positions (add_engine engine_radius engine_length).

Definition add_details : Gen unit :=
  r <- random ;;
  (if Qgtb r 0.4 then
     gun_length <- uniform 0.4 0.8 ;;
     gun_radius <- uniform 0.02 0.05 ;;
     gun_spread <- uniform 0.15 0.35 ;;
     for_each [-1; 1] (fun side =>
       result <- emit (create_cone true false 6 gun_radius gun_radius gun_length
                         (Translation (Vec (gun_length / 2 + 0.5) 0 (gun_spread * side)) @@
                          Rotation (radians 90) 4 AxisY)) ;;
       add_to_mesh (result_verts result) hull_dark)
   else ret tt) ;;;
  r <- random ;;
  (if Qgtb r 0.5 then
     for_each [-1; 1] (fun side =>
       x <- uniform 0 0.5 ;;
       z <- uniform 0.8 1.5 ;;
       let pos := Vec x 0 (z * side) in
       result <- emit (create_cone true false 6 0.03 0.03 0.5
                         (Translation pos @@ Rotation (radians 90) 4 AxisY)) ;;
       add_to_mesh (result_verts result) hull_dark)
   else ret tt) ;;;
  r <- random ;;
  (if Qgtb r 0.6 then
     result <- emit (create_cone true false 8 0.0 0.1 0.15
                       (Translation (Vec 0.3 0.3 0) @@
                        Rotation (radians (-90)) 4 AxisX)) ;;
     add_to_mesh (result_verts result) hull_accent
   else ret tt).

Definition create_materials : Gen (list BSDF) :=
  hull_hue <- random ;;
  hull_l <- uniform 0.4 0.7 ;;
  hull_s <- uniform 0.0 0.15 ;;
  let hull_base := with_alpha (hls_to_rgb hull_hue hull_l hull_s) 1.0 in
  shift <- uniform 0.05 0.15 ;;
  let accent_hue := Qmod1 (hull_hue + shift) in
  accent_l <- uniform 0.4 0.6 ;;
  accent_s <- uniform 0.5 0.8 ;;
  let accent_color := with_alpha (hls_to_rgb accent_hue accent_l accent_s) 1.0 in
  glow_hue <- choice 0.0 [0.1; 0.55; 0.65] ;;
  let glow_color := with_alpha (hls_to_rgb glow_hue 0.6 1.0) 1.0 in
  ret (map (fun material =>
         match material with
         | hull =>
             Build_BSDF material hull_base (Some 0.3) (Some 0.5) None None
         | hull_accent =>
             Build_BSDF material accent_color (Some 0.2) (Some 0.4) None None
         | hull_dark =>
             let dark := RGBA (red hull_base * 0.2) (green hull_base * 0.2)
                              (blue hull_base * 0.2) 1.0 in
             Build_BSDF material dark (Some 0.6) (Some 0.3) None None
         | engine_glow =>
             Build_BSDF material glow_color None None (Some glow_color) (Some 8.0)
         | cockpit =>
             Build_BSDF material (RGBA 0.1 0.15 0.2 1.0) (Some 0.9) (Some 0.1) None None
         end) all_materials).

(** [if random_seed:] on a string *)
Definition truthy (s : string) : bool :=
  match s with EmptyString => false | String _ _ => true end.

(** The five generators on one mesh, in the order of [generate_starfighter]. *)
Definition build_ship : Gen unit :=
  fuselage_style <- create_fuselage ;;
  add_cockpit_canopy fuselage_style ;;;
  wing_style <- add_wings ;;
  add_engines wing_style ;;;
  add_details.

(** [generate_starfighter(random_seed)], a step of the global random
    stream.  [bm = bmesh.new()] starts from the empty mesh. *)
Definition generate_starfighter (random_seed : string) : State G Object :=
  fun g =>
    let w := (g, @nil BMOp) in
    let w := if truthy random_seed then snd (seed random_seed w) else w in
    let w := snd (build_ship w) in
    let me := snd w in
    let (materials, w) := create_materials w in
    (Build_Object me
       [origin_set_center_of_mass; set_location (Vec 0 0 0); shade_smooth]
       materials,
     fst w).

End Generator.

Arguments World G : clear implicits.
Arguments Gen G A : clear implicits.

(** ** A scripted random stream

    A stream that replays a list of raw draws and then zeros: [random()]
    is the draw's last two decimal digits over 100, [_randbelow(n)] the
    draw modulo [n].  Seeding with a string installs its character codes. *)

Definition Script : Type := list nat.

Definition script_next (g : Script) : nat * Script :=
  match g with
  | [] => (0%nat, [])
  | k :: g' => (k, g')
  end.

Definition script_random (g : Script) : Q * Script :=
  let (k, g') := script_next g in (Z.of_nat (k mod 100) # 100, g').

Definition script_below (n : nat) (g : Script) : nat * Script :=
  let (k, g') := script_next g in ((k mod n)%nat, g').

Definition script_seed (a : string) : Script :=
  map nat_of_ascii (list_ascii_of_string a).

#[export] Instance ScriptSource : RandomSource Script.
Proof.
  refine {| seed_state := script_seed;
            next_random := script_random;
            next_below := script_below |}.
  - intro g. unfold script_random. destruct (script_next g) as [k g']. cbn [fst].
    assert (Hk : (k mod 100 < 100)%nat) by (apply Nat.mod_upper_bound; discriminate).
    unfold Qle, Qlt. cbn [Qnum Qden]. lia.
  - intros n g Hn. unfold script_below. destruct (script_next g) as [k g']. cbn [fst].
    apply Nat.mod_upper_bound. lia.
Defined.

(** ** Observations on a mesh *)

(** What a generator appended to the mesh it was given. *)
Definition appended {G A} (m : Gen G A) (w : World G) : list BMOp :=
  skipn (List.length (snd w)) (snd (snd (m w))).

(** The material of every tagging call, in order. *)
Fixpoint tags (ops : list BMOp) : list Material :=
  match ops with
  | [] => []
  | set_material_index _ m :: ops' => m :: tags ops'
  | _ :: ops' => tags ops'
  end.

Definition is_cone (op : BMOp) : bool :=
  match op with create_cone _ _ _ _ _ _ _ => true | _ => false end.

Definition is_tag (m : Material) (op : BMOp) : bool :=
  match op with set_material_index _ m' => Material_eqb m m' | _ => false end.

Definition count (p : BMOp -> bool) (ops : list BMOp) : nat :=
  List.length (filter p ops).

(** The factor by which a placement matrix stretches each coordinate axis.
    [Scale f n a] along a unit axis [a] is the identity plus [(f - 1)]
    times the projection on [a]; translations and rotations stretch
    nothing.  The product rule is exact for the matrices of this script,
    where no rotation is multiplied with a scaling. *)
Fixpoint axis_factors (m : Matrix) : Vector :=
  match m with
  | Scale f _ a =>
      Vec (1 + (f - 1) * vx a * vx a)
          (1 + (f - 1) * vy a * vy a)
          (1 + (f - 1) * vz a * vz a)
  | MatMul a b =>
      Vec (vx (axis_factors a) * vx (axis_factors b))
          (vy (axis_factors a) * vy (axis_factors b))
          (vz (axis_factors a) * vz (axis_factors b))
  | _ => Vec 1 1 1
  end.

(** The translation part of a placement matrix [Translation v @@ ...]. *)
Fixpoint translation_of (m : Matrix) : Vector :=
  match m with
  | Translation v => v
  | MatMul a _ => translation_of a
  | _ => Vec 0 0 0
  end.

(** The three dimensions of the solid a call creates, before it is rotated
    and moved into place: a cube of the given size, a cone of the given
    depth around its larger end, a sphere of the given radius.  Moving the
    vertices of an extruded region gives the extrusion its thickness, the
    largest component of the displacement.  Other calls create no solid. *)
Definition extents (op : BMOp) : list Q :=
  match op with
  | create_cube size m =>
      let f := axis_factors m in [size * vx f; size * vy f; size * vz f]
  | create_cone _ _ _ radius1 radius2 depth m =>
      let f := axis_factors m in
      [2 * Qmax radius1 radius2 * vx f; 2 * Qmax radius1 radius2 * vy f; depth * vz f]
  | create_icosphere _ radius m =>
      let f := axis_factors m in
      [2 * radius * vx f; 2 * radius * vy f; 2 * radius * vz f]
  | translate (result_geom_verts _) v =>
      [Qmax (Qabs (vx v)) (Qmax (Qabs (vy v)) (Qabs (vz v)))]
  | _ => []
  end.

(** The material a tagging call assigns satisfies [P]. *)
Definition tag_in (P : Material -> Prop) (op : BMOp) : Prop :=
  match op with
  | set_material_index _ m => P m
  | _ => True
  end.

(** [appends inv post m]: from every state, [m] returns a value satisfying
    [post], leaves the calls already on the mesh in place and adds only
    calls satisfying [inv]. *)
Definition appends {G A} (inv : BMOp -> Prop) (post : A -> Prop) (m : Gen G A) : Prop :=
  forall w : World G,
    post (fst (m w)) /\
    exists new, snd (snd (m w)) = snd w ++ new /\ Forall inv new.

(** The placement matrix of a call that creates a solid. *)
Definition placement (op : BMOp) : Matrix :=
  match op with
  | create_cone _ _ _ _ _ _ m => m
  | create_cube _ m => m
  | create_icosphere _ _ m => m
  | _ => Identity
  end.

(** A stream whose first draw picks "central", whose next two draws size
    the engine and whose fourth draw picks two engines. *)
Definition central_then_two : World Script := ([3; 0; 0; 1]%nat, []).

(** [count] of the calls that create a solid. *)
Definition is_solid (op : BMOp) : bool :=
  match op with
  | create_cone _ _ _ _ _ _ _ | create_cube _ _ | create_icosphere _ _ _ => true
  | _ => false
  end.

(** The angle, in degrees, of every [rotate] call, in order. *)
Fixpoint rotations (ops : list BMOp) : list Q :=
  match ops with
  | [] => []
  | rotate _ _ (Rotation a _ _) :: ops' => degrees a :: rotations ops'
  | _ :: ops' => rotations ops'
  end.

(** [adds p lo hi m]: from every state, [m] leaves the calls already on
    the mesh in place and adds between [lo] and [hi] calls satisfying
    [p]. *)
Definition adds {G A} (p : BMOp -> bool) (lo hi : nat) (m : Gen G A) : Prop :=
  forall w : World G,
    exists new, snd (snd (m w)) = snd w ++ new /\ (lo <= count p new <= hi)%nat.


(** Every channel of a colour lies in [0, 1]. *)
Definition valid_color (c : Color) : Prop :=
  0 <= red c <= 1 /\ 0 <= green c <= 1 /\ 0 <= blue c <= 1 /\ 0 <= alpha c <= 1.

Definition valid_material (b : BSDF) : Prop :=
  valid_color (base_color b)
  /\ match emission_color b with Some c => valid_color c | None => True end.

(** What the engine generator may put on the mesh: a capped, tapered
    12-sided cone of positive size, or a tag [hull_dark] or
    [engine_glow]. *)
Definition engine_call (op : BMOp) : Prop :=
  match op with
  | create_cone cap_ends cap_tris segments radius1 radius2 depth _ =>
      cap_ends = true /\ cap_tris = false /\ segments = 12%nat
      /\ 0 < radius2 /\ radius2 < radius1 /\ radius1 <= 0.5
      /\ 0 < depth /\ depth <= 0.9
  | set_material_index _ m => m = hull_dark \/ m = engine_glow
  | _ => False
  end.

(** What the detail generator may put on the mesh: a capped cone of 6 or
    8 sides, at most 0.8 deep and 0.1 in radius, or a tag [hull_dark] or
    [hull_accent]. *)
Definition detail_call (op : BMOp) : Prop :=
  match op with
  | create_cone cap_ends cap_tris segments radius1 radius2 depth _ =>
      cap_ends = true /\ cap_tris = false /\ (segments = 6%nat \/ segments = 8%nat)
      /\ 0 <= radius1 <= 0.1 /\ 0 < radius2 <= 0.1
      /\ 0 < depth /\ depth <= 0.8
  | set_material_index _ m => m = hull_dark \/ m = hull_accent
  | _ => False
  end.

(** The vertex lists of the faces made by [faces_new], in order. *)
Fixpoint faces (ops : list BMOp) : list (list Geom) :=
  match ops with
  | [] => []
  | faces_new verts :: ops' => verts :: faces ops'
  | _ :: ops' => faces ops'
  end.

(** The sum of one coordinate over a list of positions. *)
Definition sum_by (f : Vector -> Q) (ps : list Vector) : Q :=
  fold_right (fun p acc => f p + acc) 0 ps.

(** An x-wing panel of the given size: a unit cube scaled to width,
    thickness and length, placed half its length along z. *)
Definition x_wing_panel (wing_length wing_width wing_thickness : Q) (op : BMOp) : Prop :=
  match op with
  | create_cube size m =>
      size = 1
      /\ exists x_offset, -0.3 <= x_offset <= 0.1
         /\ m = Translation (Vec x_offset 0 (wing_length / 2)) @@
                Scale wing_width 4 (Vec 1 0 0) @@
                Scale wing_thickness 4 (Vec 0 1 0) @@
                Scale wing_length 4 (Vec 0 0 1)
  | create_cone _ _ _ _ _ _ _ | create_icosphere _ _ _ => False
  | _ => True
  end.

(** The handle of every vertex made by [verts_new], in order, on a mesh
    that held [k] calls before. *)
Fixpoint vert_handles (k : nat) (ops : list BMOp) : list Geom :=
  match ops with
  | [] => []
  | verts_new _ :: ops' => new_vert k :: vert_handles (S k) ops'
  | _ :: ops' => vert_handles (S k) ops'
  end.

(** The coordinates of every vertex made by [verts_new], in order. *)
Fixpoint vertices (ops : list BMOp) : list Vector :=
  match ops with
  | [] => []
  | verts_new co :: ops' => co :: vertices ops'
  | _ :: ops' => vertices ops'
  end.

(** [b] is [a] reflected in the plane z = 0. *)
Definition mirrored (a b : Vector) : Prop :=
  vx a == vx b /\ vy a == vy b /\ vz a == - vz b.

Definition is_face (op : BMOp) : bool :=
  match op with faces_new _ => true | _ => false end.

Definition is_extrusion (op : BMOp) : bool :=
  match op with extrude_face_region _ => true | _ => false end.

(** The depth of a cone. *)
Definition depths (op : BMOp) : list Q :=
  match op with
  | create_cone _ _ _ _ _ depth _ => [depth]
  | _ => []
  end.

(** The radii of a cone. *)
Definition radii (op : BMOp) : list Q :=
  match op with
  | create_cone _ _ _ radius1 radius2 _ _ => [radius1; radius2]
  | _ => []
  end.

(** ** The batch driver *)

(** What a Python call raises. *)
Inductive Failure : Type := ValueError | ZeroDivisionError.

Inductive Result (A : Type) : Type :=
| Ok (a : A)
| Raise (e : Failure).

Arguments Ok {A} a.
Arguments Raise {A} e.

(** [str(n)] for a non-negative [int]. *)
Definition str (n : N) : string := NilEmpty.string_of_uint (N.to_uint n).

Definition starts_with_sep (s : string) : bool :=
  match s with
  | String c _ => Ascii.eqb c "/"
  | EmptyString => false
  end.

Fixpoint ends_with_sep (s : string) : bool :=
  match s with
  | EmptyString => false
  | String c EmptyString => Ascii.eqb c "/"
  | String _ s' => ends_with_sep s'
  end.

(** [os.path.join(a, b)] on POSIX paths. *)
Definition path_join (a b : string) : string :=
  if starts_with_sep b then b
  else if negb (truthy a) || ends_with_sep a then a ++ b
  else a ++ "/" ++ b.

(** [OUTPUT_DIR], from the directory [DIR] of the script. *)
Definition OUTPUT_DIR (DIR : string) : string :=
  path_join (path_join (path_join DIR "..") "public") "ships".

(** [os.path.join(OUTPUT_DIR, f'enemy-ship-{i}.glb')] *)
Definition output_path (DIR : string) (i : N) : string :=
  path_join (OUTPUT_DIR DIR) ("enemy-ship-" ++ str i ++ ".glb").

(** The seed [main] passes for ship [i]: [str(i * 7777 + 42)]. *)
Definition ship_seed (i : N) : string := str (i * 7777 + 42).

(** [max(xs)] and [min(xs)]; an empty sequence raises [ValueError]. *)
Definition py_max (xs : list Q) : Result Q :=
  match xs with
  | [] => Raise ValueError
  | x :: xs' => Ok (fold_left Qmax xs' x)
  end.

Definition py_min (xs : list Q) : Result Q :=
  match xs with
  | [] => Raise ValueError
  | x :: xs' => Ok (fold_left Qmin xs' x)
  end.

Definition try {A B} (r : Result A) (k : A -> Result B) : Result B :=
  match r with
  | Ok a => k a
  | Raise e => Raise e
  end.

(** The extent of the corners [bbox] along one coordinate. *)
Definition span (xs : list Q) : Result Q :=
  try (py_max xs) (fun hi => try (py_min xs) (fun lo => Ok (hi - lo))).

(** [dims] of [main]: the size of the bounding box along x, y and z. *)
Definition bbox_dims (bbox : list Vector) : Result Vector :=
  try (span (map vx bbox)) (fun dx =>
  try (span (map vy bbox)) (fun dy =>
  try (span (map vz bbox)) (fun dz =>
  Ok (Vec dx dy dz)))).

(** [scale_factor = 1.5 / max_dim]; dividing by a zero float raises. *)
Definition scale_factor (bbox : list Vector) : Result Q :=
  try (bbox_dims bbox) (fun dims =>
  try (py_max [vx dims; vy dims; vz dims]) (fun max_dim =>
  if Qeq_bool max_dim 0 then Raise ZeroDivisionError
  else Ok (1.5 / max_dim))).

(** One exported file: its path, the object and the scale applied to it. *)
Record Export : Type := {
  filepath : string;
  exported : Object;
  object_scale : Q
}.

Section Driver.

Context {G : Type} {RS : RandomSource G}.

(** The host: the corners of an object's bounding box in world space,
    [[obj.matrix_world @ Vector(corner) for corner in obj.bound_box]]. *)
Variable world_bbox : Object -> list Vector.

(** The directory of the script. *)
Variable DIR : string.

(** The [for i in range(num_ships)] loop of [main] over the indices still
    to do: the files exported, in order, and the exception that stopped
    the loop, if any. *)
Fixpoint main_loop (indices : list N) : State G (list Export * option Failure) :=
  fun g =>
    match indices with
    | [] => (([], None), g)
    | i :: rest =>
        let (obj, g) := generate_starfighter (ship_seed i) g in
        match scale_factor (world_bbox obj) with
        | Raise e => (([], Some e), g)
        | Ok factor =>
            let (done, g) := main_loop rest g in
            ((Build_Export (output_path DIR i) obj factor :: fst done, snd done), g)
        end
    end.

Definition num_ships : nat := 10.

Definition main : State G (list Export * option Failure) :=
  main_loop (map N.of_nat (range num_ships)).

End Driver.

(** ** Reasoning about generators *)

Section Reasoning.

Context {G : Type} {RS : RandomSource G}.

Lemma appended_eq {A} (m : Gen G A) (w : World G) (new : list BMOp) :
  snd (snd (m w)) = snd w ++ new -> appended m w = new.
Proof.
  unfold appended. intros ->.
  rewrite skipn_app, skipn_all, Nat.sub_diag. reflexivity.
Qed.

Lemma appends_ret {A} inv (post : A -> Prop) (a : A) :
  post a -> appends (G := G) inv post (ret a).
Proof.
  intros Ha w. split; [exact Ha|].
  exists []. split; [symmetry; apply app_nil_r | constructor].
Qed.

Lemma appends_bind {A B} inv (mid : A -> Prop) (post : B -> Prop)
    (m : Gen G A) (f : A -> Gen G B) :
  appends inv mid m ->
  (forall a, mid a -> appends inv post (f a)) ->
  appends inv post (bind m f).
Proof.
  intros Hm Hf w. unfold bind.
  destruct (Hm w) as [Ha [new1 [E1 F1]]].
  destruct (m w) as [a w1]. cbn [fst snd] in *.
  destruct (Hf a Ha w1) as [Hb [new2 [E2 F2]]].
  split; [exact Hb|].
  exists (new1 ++ new2). split.
  - rewrite E2, E1, app_assoc. reflexivity.
  - apply Forall_app. split; assumption.
Qed.

Lemma appends_random inv : appends inv (fun r => 0 <= r < 1) random.
Proof.
  intros [g bm]. unfold random. cbn [fst snd].
  pose proof (next_random_range g) as Hr.
  destruct (next_random g) as [r g']. cbn [fst snd] in *.
  split; [exact Hr|].
  exists []. split; [symmetry; apply app_nil_r | constructor].
Qed.

Lemma uniform_bounds (a b r : Q) :
  a < b -> 0 <= r < 1 -> a <= a + (b - a) * r < b.
Proof.
  intros Hab [H0 H1].
  assert (0 <= (b - a) * r) by (apply Qmult_le_0_compat; lra).
  assert (0 < (b - a) * (1 - r)) by (apply Qmult_lt_0_compat; lra).
  lra.
Qed.

Lemma appends_uniform inv (a b : Q) :
  a < b -> appends inv (fun x => a <= x < b) (uniform a b).
Proof.
  intro Hab. unfold uniform.
  apply appends_bind with (mid := fun r => 0 <= r < 1).
  - apply appends_random.
  - intros r Hr. apply appends_ret. apply uniform_bounds; assumption.
Qed.

Lemma appends_choice {A} inv (x : A) (xs : list A) :
  appends inv (fun y => In y (x :: xs)) (choice x xs).
Proof.
  intros [g bm]. unfold choice. cbn [fst snd].
  destruct (next_below (List.length (x :: xs)) g) as [i g']. cbn [fst snd].
  split.
  - destruct (nth_in_or_default i (x :: xs) x) as [Hin | ->]; [exact Hin | left; reflexivity].
  - exists []. split; [symmetry; apply app_nil_r | constructor].
Qed.

Lemma appends_emit inv (op : BMOp) :
  inv op -> appends (G := G) inv (fun _ => True) (emit op).
Proof.
  intros Hop [g bm]. unfold emit. cbn [fst snd].
  split; [exact I|].
  exists [op]. split; [reflexivity | constructor; [exact Hop | constructor]].
Qed.

Lemma appends_add_to_mesh inv (verts : Geom) (m : Material) :
  inv (set_material_index (link_faces verts) m) ->
  appends (G := G) inv (fun _ => True) (add_to_mesh verts m).
Proof.
  intro Hop. unfold add_to_mesh.
  apply appends_bind with (mid := fun _ => True).
  - apply appends_emit. exact Hop.
  - intros _ _. apply appends_ret. exact I.
Qed.

Lemma appends_for_each {A} inv (l : list A) (body : A -> Gen G unit) :
  (forall x, In x l -> appends inv (fun _ => True) (body x)) ->
  appends inv (fun _ => True) (for_each l body).
Proof.
  induction l as [|x l IH]; intro Hbody; cbn [for_each].
  - apply appends_ret. exact I.
  - apply appends_bind with (mid := fun _ => True).
    + apply Hbody. left. reflexivity.
    + intros _ _. apply IH. intros y Hy. apply Hbody. right. exact Hy.
Qed.

Lemma appends_appended {A} inv (post : A -> Prop) (m : Gen G A) (w : World G) :
  appends inv post m -> Forall inv (appended m w).
Proof.
  intro Hm. destruct (Hm w) as [_ [new [E F]]].
  rewrite (appended_eq m w new E). exact F.
Qed.

(** A generator that may add only impossible calls adds none. *)
Lemma appends_nothing {A} (post : A -> Prop) (m : Gen G A) :
  appends (fun _ => False) post m -> forall w, snd (snd (m w)) = snd w.
Proof.
  intros Hm w. destruct (Hm w) as [_ [new [E F]]].
  destruct new as [|op new].
  - rewrite E. apply app_nil_r.
  - inversion F as [|? ? Hop _]. destruct Hop.
Qed.

End Reasoning.

Lemma Forall_tags (P : Material -> Prop) (ops : list BMOp) :
  Forall (tag_in P) ops -> Forall P (tags ops).
Proof.
  induction 1 as [|op ops Hop _ IH]; cbn [tags]; [constructor|].
  destruct op; cbn [tag_in] in Hop; try exact IH.
  constructor; assumption.
Qed.

(** ** Running a generator by hand *)

Ltac draw :=
  match goal with
  | |- context [next_random ?g] =>
      let r := fresh "r" in
      let g' := fresh "g" in
      let Hr := fresh "Hr" in
      pose proof (next_random_range g) as Hr;
      destruct (next_random g) as [r g']; cbn [fst snd] in Hr
  end.

Ltac unfold_gen :=
  cbv beta iota delta
    [bind ret uniform random emit add_to_mesh for_each fst snd].

Ltac branch :=
  match goal with
  | |- context [Qgtb ?r ?c] =>
      let Hb := fresh "Hb" in destruct (Qgtb r c) eqn:Hb
  end.

Ltac run_gen := unfold_gen; repeat ((draw || branch); unfold_gen).

Ltac run_appended :=
  unfold appended; run_gen;
  repeat rewrite <- app_assoc; cbn [app];
  rewrite ?skipn_app, ?skipn_all, ?Nat.sub_diag; cbn [skipn app];
  repeat rewrite length_app; cbn [List.length].

Ltac appends_leaf :=
  first
    [ apply appends_random
    | apply appends_uniform; lra
    | apply appends_choice
    | apply appends_add_to_mesh
    | apply appends_emit ].

(** Walks a generator along its binds, loops and branches, leaving one
    goal for every call it emits. *)
Ltac appends_walk :=
  repeat (cbv beta in *;
    lazymatch goal with
    | |- appends _ _ (bind (if ?b then _ else _) _) =>
        eapply appends_bind; [destruct b; appends_leaf | intros ? ?]
    | |- appends _ _ (bind _ _) =>
        eapply appends_bind; [appends_leaf | intros ? ?]
    | |- appends _ _ (for_each _ _) => apply appends_for_each; intros ? ?
    | |- appends _ _ (ret _) => apply appends_ret; exact I
    | |- appends _ _ (add_to_mesh _ _) => apply appends_add_to_mesh
    | |- appends _ _ (emit _) => apply appends_emit
    | |- appends _ _ (if ?b then _ else _) => destruct b
    end).

Lemma extrusion_thickness (t : Q) :
  0.03 <= t -> 0.03 <= Qmax (Qabs 0) (Qmax (Qabs t) (Qabs 0)).
Proof.
  intro Ht.
  apply Qle_trans with (Qmax (Qabs t) (Qabs 0)); [|apply Q.le_max_r].
  apply Qle_trans with (Qabs t); [|apply Q.le_max_l].
  apply Qle_trans with t; [exact Ht | apply Qle_Qabs].
Qed.

Lemma cone_width (r1 r2 : Q) : 0.015 <= r1 -> 0.03 <= 2 * Qmax r1 r2 * 1.
Proof.
  intro Hr. pose proof (Q.le_max_l r1 r2) as Hm.
  generalize dependent (Qmax r1 r2). intros m Hm. lra.
Qed.

(** ** Properties of the wing generator *)

Section WingClaims.

Context {G : Type} {RS : RandomSource G}.


Lemma wings_body_thickness (ws : WingStyle) :
  appends (fun op => Forall (fun d => 0.03 <= d) (extents op)) (fun _ => True)
    (wings_body ws).
Proof.
  destruct ws; unfold wings_body; appends_walk;
    cbn [extents axis_factors vx vy vz];
    repeat (apply Forall_cons || apply Forall_nil);
    try (apply extrusion_thickness; lra);
    try (apply cone_width; lra);
    try lra.
Qed.

Lemma add_wings_appends (inv : BMOp -> Prop) :
  (forall ws, appends inv (fun _ => True) (wings_body ws)) ->
  appends inv (fun _ => True) add_wings.
Proof.
  intro Hbody. unfold add_wings.
  eapply appends_bind; [apply appends_choice | intros ws _].
  eapply appends_bind; [apply Hbody | intros _ _].
  apply appends_ret. exact I.
Qed.

(** C5.  Every solid the wing generator creates, whatever the wing style
    and the draws, measures at least 0.03 along each of its three
    dimensions, and every extrusion is at least 0.03 thick: panel
    thickness, extrusion offset, panel depth, ring thickness and stub
    height all stay at or above 0.03. *)
Theorem wing_geometry_never_thin (ws : WingStyle) (w : World G) :
  Forall (fun op => Forall (fun d => 0.03 <= d) (extents op))
    (appended (wings_body ws) w)
  /\ Forall (fun op => Forall (fun d => 0.03 <= d) (extents op))
       (appended add_wings w).
Proof.
  split.
  - eapply appends_appended. apply wings_body_thickness.
  - eapply appends_appended. apply add_wings_appends. apply wings_body_thickness.
Qed.


Lemma wings_body_no_glow_no_cockpit (ws : WingStyle) :
  appends (tag_in (fun m => m <> engine_glow /\ m <> cockpit)) (fun _ => True)
    (wings_body ws).
Proof.
  destruct ws; unfold wings_body; appends_walk; cbn [tag_in];
    try exact I; try (split; discriminate).
  destruct (_ mod 2 =? 0)%nat; split; discriminate.
Qed.




End WingClaims.

(** ** Properties of the engine generator *)

Lemma count_app (p : BMOp -> bool) (a b : list BMOp) :
  count p (a ++ b) = (count p a + count p b)%nat.
Proof.
  unfold count. rewrite filter_app, length_app. reflexivity.
Qed.

Section EngineClaims.

Context {G : Type} {RS : RandomSource G}.

(** The number of engines the rear branch draws. *)
Lemma num_engines_choice (w : World G) :
  let n := fst (choice 1%nat [2%nat; 3%nat] w) in n = 1%nat \/ n = 2%nat \/ n = 3%nat.
Proof.
  destruct (appends_choice (fun _ => True) 1%nat [2%nat; 3%nat] w) as [Hin _].
  cbv zeta. cbn [In] in Hin.
  destruct Hin as [H | [H | [H | []]]]; rewrite <- H; auto.
Qed.

Lemma rear_placement (engine_style : EngineStyle) (wing_style : WingStyle)
    (engine_radius engine_length : Q) (w : World G) :
  is_rear engine_style || is_vertical wing_style = true ->
  fst (engine_placement engine_style wing_style engine_radius engine_length w) =
    (map (fun i =>
            Vec (-0.8) 0
              ((float i - (float (fst (choice 1%nat [2%nat; 3%nat] w)) - 1) / 2) * 0.25))
         (range (fst (choice 1%nat [2%nat; 3%nat] w))),
     engine_radius, engine_length).
Proof.
  intro Hrear. unfold engine_placement. rewrite Hrear.
  unfold bind, ret. destruct (choice 1%nat [2%nat; 3%nat] w) as [n w']. reflexivity.
Qed.

(** C2.  With vertical wings the placement is the rear one whatever engine
    style was drawn: it is the placement computed for the style "rear"
    under any wing style, that is, one, two or three positions at x = -0.8
    and y = 0, spaced 0.25 apart around z = 0, with the drawn radius and
    length unchanged. *)
Theorem vertical_wings_force_rear (engine_style : EngineStyle) (wing_style : WingStyle)
    (engine_radius engine_length : Q) (w : World G) :
  engine_placement engine_style vertical engine_radius engine_length w =
    engine_placement rear wing_style engine_radius engine_length w
  /\ exists num_engines : nat,
       (num_engines = 1 \/ num_engines = 2 \/ num_engines = 3)%nat
       /\ fst (engine_placement engine_style vertical engine_radius engine_length w) =
            (map (fun i =>
                    Vec (-0.8) 0 ((float i - (float num_engines - 1) / 2) * 0.25))
                 (range num_engines),
             engine_radius, engine_length).
Proof.
  split.
  - unfold engine_placement. cbn [is_rear is_vertical].
    rewrite orb_true_r. reflexivity.
  - exists (fst (choice 1%nat [2%nat; 3%nat] w)). split.
    + apply num_engines_choice.
    + apply rear_placement. cbn [is_vertical]. apply orb_true_r.
Qed.

Lemma rear_positions_length (engine_style : EngineStyle) (wing_style : WingStyle)
    (engine_radius engine_length : Q) (w : World G) :
  is_rear engine_style || is_vertical wing_style = true ->
  let n := List.length (fst (fst (fst (engine_placement engine_style wing_style
                                         engine_radius engine_length w)))) in
  (n = 1 \/ n = 2 \/ n = 3)%nat.
Proof.
  intro Hb. rewrite (rear_placement _ _ _ _ _ Hb). cbn [fst].
  unfold range. rewrite length_map, length_seq. apply num_engines_choice.
Qed.

(** C4.  The list of engine positions is never empty: the rear branch
    (engine style "rear", or vertical wings) gives 1, 2 or 3 positions,
    "wing_tip" gives 2 or 6, "pod" gives 2 and "central" gives 1. *)
Theorem engine_positions_nonempty (engine_style : EngineStyle) (wing_style : WingStyle)
    (engine_radius engine_length : Q) (w : World G) :
  let positions :=
    fst (fst (fst (engine_placement engine_style wing_style
                     engine_radius engine_length w))) in
  let n := List.length positions in
  (positions <> [] /\
   match wing_style, engine_style with
   | vertical, _ | _, rear => n = 1 \/ n = 2 \/ n = 3
   | _, wing_tip => n = 2 \/ n = 6
   | _, engine_pod => n = 2
   | _, central => n = 1
   end)%nat.
Proof.
  cbv zeta.
  pose proof (rear_positions_length engine_style wing_style
                engine_radius engine_length w) as Hrear.
  cbv zeta in Hrear.
  assert (Hne : forall l : list Vector, List.length l <> 0%nat -> l <> []).
  { intros l Hl ->. apply Hl. reflexivity. }
  destruct w as [g bm].
  destruct wing_style, engine_style;
    try (split; [apply Hne; destruct (Hrear eq_refl) as [H | [H | H]]; rewrite H; discriminate
                | exact (Hrear eq_refl)]);
    unfold engine_placement; cbn [is_rear is_vertical orb]; run_gen; cbn [fst List.length app];
    split; try discriminate; auto.
Qed.

(** Every position receives one housing and one glow cone. *)
Lemma for_each_add_engine (engine_radius engine_length : Q) (positions : list Vector) :
  forall w : World G,
    let n := List.length positions in
    exists new,
      snd (for_each positions (add_engine engine_radius engine_length) w) =
        (fst w, snd w ++ new)
      /\ count is_cone new = (2 * n)%nat
      /\ count (is_tag hull_dark) new = n
      /\ count (is_tag engine_glow) new = n.
Proof.
  induction positions as [|pos positions IH]; intros [g bm]; cbv zeta.
  - exists []. cbn [for_each]. unfold ret. cbn [fst snd].
    rewrite app_nil_r. repeat split.
  - cbn [for_each]. unfold bind at 1.
    destruct (add_engine engine_radius engine_length pos (g, bm)) as [u w1] eqn:E1.
    assert (Hw1 : exists new1, w1 = (g, bm ++ new1)
                  /\ count is_cone new1 = 2%nat
                  /\ count (is_tag hull_dark) new1 = 1%nat
                  /\ count (is_tag engine_glow) new1 = 1%nat).
    { unfold add_engine in E1. revert E1. unfold_gen. intro E1.
      injection E1 as _ <-. repeat rewrite <- app_assoc. cbn [app].
      eexists. split; [reflexivity|]. repeat split. }
    destruct Hw1 as [new1 [-> [C1 [C2 C3]]]].
    destruct (IH (g, bm ++ new1)) as [new2 [E2 [D1 [D2 D3]]]].
    cbn [fst snd] in E2.
    exists (new1 ++ new2). split.
    + rewrite E2. cbn [fst snd]. rewrite app_assoc. reflexivity.
    + rewrite !count_app, C1, C2, C3, D1, D2, D3. cbn [List.length]. lia.
Qed.

Lemma engine_placement_draws_only (engine_style : EngineStyle) (wing_style : WingStyle)
    (engine_radius engine_length : Q) :
  appends (fun _ => False) (fun _ => True)
    (engine_placement engine_style wing_style engine_radius engine_length).
Proof.
  destruct engine_style, wing_style; unfold engine_placement;
    cbn [is_rear is_vertical orb]; appends_walk.
Qed.

(** The engine generator emits one housing and one glow cone for every
    position of the placement it computed. *)
Lemma add_engines_pairs (wing_style : WingStyle) (w : World G) :
  exists (engine_radius engine_length : Q) (w' : World G),
    let engine_style := fst (choice rear [wing_tip; engine_pod; central] w) in
    let n := List.length (fst (fst (fst
               (engine_placement engine_style wing_style
                  engine_radius engine_length w')))) in
    exists new,
      appended (add_engines wing_style) w = new
      /\ count is_cone new = (2 * n)%nat
      /\ count (is_tag hull_dark) new = n
      /\ count (is_tag engine_glow) new = n.
Proof.
  unfold add_engines, appended.
  unfold bind at 1.
  pose proof (appends_nothing _ _ (appends_choice (fun _ => False) rear
                [wing_tip; engine_pod; central]) w) as M1.
  destruct (choice rear [wing_tip; engine_pod; central] w) as [es w1].
  unfold bind at 1.
  pose proof (appends_nothing _ _ (appends_uniform (fun _ => False) 0.1 0.25
                ltac:(lra)) w1) as M2.
  destruct (uniform 0.1 0.25 w1) as [r w2].
  unfold bind at 1.
  pose proof (appends_nothing _ _ (appends_uniform (fun _ => False) 0.3 0.6
                ltac:(lra)) w2) as M3.
  destruct (uniform 0.3 0.6 w2) as [l w3].
  exists r, l, w3. cbn [fst snd] in *.
  unfold bind at 1.
  pose proof (appends_nothing _ _ (engine_placement_draws_only es wing_style r l) w3) as M4.
  destruct (engine_placement es wing_style r l w3) as [[[positions r'] l'] w4].
  cbn [fst snd] in *.
  destruct (for_each_add_engine r' l' positions w4) as [new [E [C1 [C2 C3]]]].
  exists new. rewrite E. cbn [fst snd].
  rewrite M4, M3, M2, M1, skipn_app, skipn_all, Nat.sub_diag. cbn [skipn app].
  repeat split; assumption.
Qed.

(** C3, as the code has it.  When the drawn engine style is "central" and
    the wing style is "vertical", the rear branch runs: the engine
    generator appends one, two or three engine pairs (as many housing
    cones tagged [hull_dark] as glow cones tagged [engine_glow]), the
    number being drawn from 1, 2, 3. *)
Theorem vertical_wings_central_draw_engine_pairs (w : World G) :
  fst (choice rear [wing_tip; engine_pod; central] w) = central ->
  exists n : nat,
    (n = 1 \/ n = 2 \/ n = 3)%nat
    /\ count is_cone (appended (add_engines vertical) w) = (2 * n)%nat
    /\ count (is_tag hull_dark) (appended (add_engines vertical) w) = n
    /\ count (is_tag engine_glow) (appended (add_engines vertical) w) = n.
Proof.
  intro Hcentral.
  destruct (add_engines_pairs vertical w) as [r [l [w' Hpairs]]].
  cbv zeta in Hpairs. rewrite Hcentral in Hpairs.
  destruct Hpairs as [new [-> [C1 [C2 C3]]]].
  eexists. split; [|split; [exact C1 | split; [exact C2 | exact C3]]].
  apply (rear_positions_length central vertical r l w'). reflexivity.
Qed.

End EngineClaims.

(** ** Properties of the fuselage and canopy generators *)

Lemma rounded_factor_range (length width : Q) :
  1.8 <= length <= 2.8 -> 0.5 <= width <= 0.8 ->
  1.125 <= length / width / 2 <= 2.8.
Proof.
  intros [Hl1 Hl2] [Hw1 Hw2]. split.
  - apply Qle_shift_div_l; [lra|]. apply Qle_shift_div_l; lra.
  - apply Qle_shift_div_r; [lra|]. apply Qle_shift_div_r; lra.
Qed.

Section BodyClaims.

Context {G : Type} {RS : RandomSource G}.

(** C8, as the code has it.  The rounded fuselage is one icosphere
    stretched along x by [length / width / 2], with length in [1.8, 2.8]
    and width in [0.5, 0.8], so that factor lies in [1.125, 2.8].  The pod
    fuselage is one icosphere whose vertices are stretched along x by an
    independent draw from [1.2, 1.8].  The two ranges overlap. *)
Theorem fuselage_stretch_ranges (w : World G) :
  (exists length width : Q,
     appended (fuselage_body rounded) w =
       [create_icosphere 2 width (Scale (length / width / 2) 4 (Vec 1 0 0));
        set_material_index (link_faces (result_verts (List.length (snd w)))) hull]
     /\ 1.8 <= length <= 2.8 /\ 0.5 <= width <= 0.8
     /\ 1.125 <= length / width / 2 <= 2.8)
  /\
  (exists radius stretch : Q,
     appended (fuselage_body pod) w =
       [create_icosphere 2 radius Identity;
        set_material_index (link_faces (result_verts (List.length (snd w)))) hull;
        scale (Vec stretch 1 1) bm_verts]
     /\ 0.5 <= radius <= 0.8 /\ 1.2 <= stretch <= 1.8).
Proof.
  destruct w as [g bm]. cbn [snd]. split.
  - unfold fuselage_body. run_appended.
    do 2 eexists. split; [reflexivity|].
    assert (Hl : 1.8 <= 1.8 + (2.8 - 1.8) * r <= 2.8) by lra.
    assert (Hw : 0.5 <= 0.5 + (0.8 - 0.5) * r0 <= 0.8) by lra.
    split; [exact Hl|]. split; [exact Hw|].
    apply rounded_factor_range; assumption.
  - unfold fuselage_body. run_appended.
    do 2 eexists. split; [reflexivity|]. split; lra.
Qed.

(** C9, as the code has it.  The canopy generator draws [r] from [0, 1).
    When [r > 0.3] (seven tenths of the interval) it appends exactly one
    solid tagged [cockpit]: for a pointed or rounded fuselage an icosphere
    of radius in [0.2, 0.4] placed at (x, y, 0) with x in [-0.2, 0.3] and
    y in [0.1, 0.25]; for an angular or pod fuselage a cube of 1.5 times
    that size placed at (0, y, 0).  When [r <= 0.3] it appends nothing;
    the generator has no failing outcome. *)
Theorem canopy_outcomes (fuselage_style : FuselageStyle) (w : World G) :
  let r := fst (random w) in
  0 <= r < 1 /\
  if Qgtb r 0.3 then
    match fuselage_style with
    | pointed | rounded =>
        exists canopy_size x_offset y_offset : Q,
          appended (add_cockpit_canopy fuselage_style) w =
            [create_icosphere 2 canopy_size (Translation (Vec x_offset y_offset 0));
             set_material_index (link_faces (result_verts (List.length (snd w)))) cockpit]
          /\ 0.2 <= canopy_size <= 0.4
          /\ -0.2 <= x_offset <= 0.3
          /\ 0.1 <= y_offset <= 0.25
    | angular | pod =>
        exists canopy_size y_offset : Q,
          appended (add_cockpit_canopy fuselage_style) w =
            [create_cube (canopy_size * 1.5) (Translation (Vec 0 y_offset 0));
             set_material_index (link_faces (result_verts (List.length (snd w)))) cockpit]
          /\ 0.2 <= canopy_size <= 0.4
          /\ 0.1 <= y_offset <= 0.25
    end
  else
    appended (add_cockpit_canopy fuselage_style) w = [].
Proof.
  destruct w as [g bm]. cbv zeta.
  unfold add_cockpit_canopy, appended. unfold_gen.
  pose proof (next_random_range g) as Hr0.
  destruct (next_random g) as [r0 g0]. cbn [fst snd] in Hr0. unfold_gen.
  split; [exact Hr0|].
  destruct (Qgtb r0 0.3).
  - destruct fuselage_style; run_gen;
      repeat rewrite <- app_assoc; cbn [app];
      rewrite ?skipn_app, ?skipn_all, ?Nat.sub_diag; cbn [skipn app];
      [ do 3 eexists | do 3 eexists | do 2 eexists | do 2 eexists ];
      (split; [reflexivity|]); repeat split; lra.
  - apply skipn_all.
Qed.

End BodyClaims.

(** ** Properties of the assembled ship *)

Section ShipClaims.

Context {G : Type} {RS : RandomSource G}.

(** The host: how Blender turns the recorded calls into geometry, and what
    can be measured on it. *)
Variable Geometry : Type.
Variable realize : Object -> Geometry.
Variables vertex_count face_count : Geometry -> nat.
Variable face_materials : Geometry -> list nat.
Variable dimensions : Geometry -> Vector.

Lemma seeded_run (random_seed : string) (g : G) :
  truthy random_seed = true ->
  generate_starfighter random_seed g =
    generate_starfighter random_seed (seed_state random_seed).
Proof.
  intro Hseed. unfold generate_starfighter. rewrite Hseed. reflexivity.
Qed.

(** C1.  From a non-empty seed, two runs of the whole generation give the
    same ship whatever the random stream held before: the same recorded
    mesh and materials, hence the same vertex count, face count, per-face
    materials and bounding-box dimensions on any host, and the same
    random stream afterwards. *)
Theorem same_seed_same_ship (random_seed : string) (g1 g2 : G) :
  random_seed <> EmptyString ->
  let ship1 := fst (generate_starfighter random_seed g1) in
  let ship2 := fst (generate_starfighter random_seed g2) in
  ship1 = ship2
  /\ vertex_count (realize ship1) = vertex_count (realize ship2)
  /\ face_count (realize ship1) = face_count (realize ship2)
  /\ face_materials (realize ship1) = face_materials (realize ship2)
  /\ dimensions (realize ship1) = dimensions (realize ship2)
  /\ snd (generate_starfighter random_seed g1) = snd (generate_starfighter random_seed g2).
Proof.
  intro Hne.
  assert (Hseed : truthy random_seed = true).
  { destruct random_seed; [contradiction Hne; reflexivity | reflexivity]. }
  cbv zeta.
  rewrite (seeded_run random_seed g1 Hseed), (seeded_run random_seed g2 Hseed).
  repeat split.
Qed.

End ShipClaims.

(** C10.  With the empty seed the stream is not reseeded: the ship is
    built from the stream as it stands, so its mesh varies with that
    state, and two calls in a row can build different ships. *)
Theorem empty_seed_uses_current_stream :
  (forall (G : Type) (RS : RandomSource G) (g : G),
     mesh (fst (generate_starfighter EmptyString g)) = snd (snd (build_ship (g, []))))
  /\ (exists g1 g2 : Script,
        mesh (fst (generate_starfighter EmptyString g1)) <>
        mesh (fst (generate_starfighter EmptyString g2)))
  /\ (exists g : Script,
        let (ship1, g') := generate_starfighter EmptyString g in
        let (ship2, _) := generate_starfighter EmptyString g' in
        mesh ship1 <> mesh ship2).
Proof.
  split; [|split].
  - intros G RS g. unfold generate_starfighter. cbn [truthy].
    destruct (create_materials (snd (build_ship (g, [])))) as [ms w'].
    reflexivity.
  - exists [], [1%nat]. vm_compute. discriminate.
  - exists (repeat 0%nat 28 ++ [1%nat]). vm_compute. discriminate.
Qed.

(** ** Concrete runs on the scripted stream *)

(** C1 at the seed "42", from an empty stream and from a used one. *)
Lemma same_seed_same_ship_witness :
  "42"%string <> EmptyString
  /\ fst (generate_starfighter "42" ([] : Script)) =
     fst (generate_starfighter "42" ([7; 7; 7]%nat : Script)).
Proof.
  split; [discriminate|].
  apply (same_seed_same_ship (G := Script) Object (fun ship => ship)
           (fun ship => List.length (mesh ship))
           (fun ship => List.length (tags (mesh ship)))
           (fun ship => map material_index (tags (mesh ship)))
           (fun _ => Vec 0 0 0)
           "42" [] [7; 7; 7]%nat).
  discriminate.
Defined.

(** C3 on [central_then_two]. *)
Lemma vertical_wings_central_draw_witness :
  fst (choice rear [wing_tip; engine_pod; central] central_then_two) = central
  /\ exists n : nat,
       (n = 1 \/ n = 2 \/ n = 3)%nat
       /\ count is_cone (appended (add_engines vertical) central_then_two) = (2 * n)%nat
       /\ count (is_tag hull_dark) (appended (add_engines vertical) central_then_two) = n
       /\ count (is_tag engine_glow) (appended (add_engines vertical) central_then_two) = n.
Proof.
  split; [reflexivity|].
  apply (vertical_wings_central_draw_engine_pairs central_then_two).
  reflexivity.
Defined.

(** C3 fails as stated: on [central_then_two] the drawn style is "central",
    the wings are vertical, and two engine pairs are built, not one. *)
Lemma vertical_wings_central_draw_two_pairs :
  fst (choice rear [wing_tip; engine_pod; central] central_then_two) = central
  /\ count is_cone (appended (add_engines vertical) central_then_two) = 4%nat
  /\ count (is_tag hull_dark) (appended (add_engines vertical) central_then_two) = 2%nat
  /\ count (is_tag engine_glow) (appended (add_engines vertical) central_then_two) = 2%nat
  /\ count (is_tag engine_glow) (appended (add_engines vertical) central_then_two) <> 1%nat.
Proof.
  repeat split; try reflexivity. vm_compute. discriminate.
Qed.


(** C8 fails as stated: a rounded fuselage of length 2.3 and width 0.5 is
    stretched by 2.3, more than the pod's draw of 1.794. *)
Lemma pod_stretch_below_rounded_factor :
  exists width factor radius stretch : Q,
    appended (fuselage_body rounded) (([50; 0]%nat : Script), []) =
      [create_icosphere 2 width (Scale factor 4 (Vec 1 0 0));
       set_material_index (link_faces (result_verts 0)) hull]
    /\ appended (fuselage_body pod) (([0; 99]%nat : Script), []) =
         [create_icosphere 2 radius Identity;
          set_material_index (link_faces (result_verts 0)) hull;
          scale (Vec stretch 1 1) bm_verts]
    /\ factor == 2.3 /\ stretch == 1.794 /\ ~ factor < stretch.
Proof.
  do 4 eexists. split; [vm_compute; reflexivity|].
  split; [vm_compute; reflexivity|].
  split; [reflexivity|]. split; [reflexivity|].
  intro Hlt. vm_compute in Hlt. discriminate.
Qed.

(** C9 fails as stated: the canopy is not always offset forward.  On a
    pointed fuselage a low draw puts the sphere at x = -0.2, behind the
    origin; on an angular fuselage the cube sits at x = 0. *)
Lemma canopy_not_offset_forward :
  (exists op tag,
     appended (add_cockpit_canopy pointed) (([50; 0; 0; 0]%nat : Script), []) = [op; tag]
     /\ vx (translation_of (placement op)) < 0)
  /\ (exists op tag,
        appended (add_cockpit_canopy angular) (([50; 99; 99]%nat : Script), []) = [op; tag]
        /\ vx (translation_of (placement op)) = 0).
Proof.
  split; do 2 eexists; (split; [vm_compute; reflexivity|]); reflexivity.
Qed.

(** ** Properties of the batch driver *)

Lemma append_cancel_l (p s t : string) : (p ++ s = p ++ t)%string -> s = t.
Proof.
  induction p as [|c p IH]; cbn [append]; intro E; [exact E|].
  injection E as E. apply IH. exact E.
Qed.

Lemma append_length (s t : string) :
  String.length (s ++ t) = (String.length s + String.length t)%nat.
Proof.
  induction s as [|c s IH]; cbn [append String.length]; [reflexivity|].
  rewrite IH. reflexivity.
Qed.

Lemma append_cancel_r (t s1 s2 : string) : (s1 ++ t = s2 ++ t)%string -> s1 = s2.
Proof.
  revert s2. induction s1 as [|c s1 IH]; intros [|d s2] E; cbn [append] in E.
  - reflexivity.
  - apply (f_equal String.length) in E. cbn [String.length] in E.
    rewrite append_length in E. lia.
  - apply (f_equal String.length) in E. cbn [String.length] in E.
    rewrite append_length in E. lia.
  - injection E as -> E. f_equal. apply IH. exact E.
Qed.

Lemma str_inj (n m : N) : str n = str m -> n = m.
Proof.
  unfold str. intro E.
  apply DecimalN.Unsigned.to_uint_inj.
  pose proof (NilEmpty.usu (N.to_uint n)) as Hn.
  rewrite E, NilEmpty.usu in Hn. injection Hn as Hn. symmetry. exact Hn.
Qed.

Lemma str_nonempty (n : N) : truthy (str n) = true.
Proof.
  destruct (str n) eqn:E; [|reflexivity].
  assert (Hz : str n = str 0 -> n = 0%N) by apply str_inj.
  unfold str in E.
  pose proof (NilEmpty.usu (N.to_uint n)) as Hn. rewrite E in Hn.
  cbn in Hn. injection Hn as Hn.
  destruct n as [|p]; cbn in Hn; [discriminate|].
  exfalso. apply (DecimalPos.Unsigned.to_uint_nonnil p). symmetry. exact Hn.
Qed.

(** The part of an output path that does not depend on the index. *)
Lemma output_path_shape (DIR : string) :
  exists prefix : string,
    forall i, output_path DIR i = (prefix ++ str i ++ ".glb")%string.
Proof.
  unfold output_path, path_join at 1. cbn [starts_with_sep append Ascii.eqb Bool.eqb].
  destruct (negb (truthy (OUTPUT_DIR DIR)) || ends_with_sep (OUTPUT_DIR DIR)).
  - exists (OUTPUT_DIR DIR ++ "enemy-ship-")%string. intro i.
    induction (OUTPUT_DIR DIR) as [|c d IH]; cbn [append]; [reflexivity|].
    f_equal. exact IH.
  - exists (OUTPUT_DIR DIR ++ "/enemy-ship-")%string. intro i.
    induction (OUTPUT_DIR DIR) as [|c d IH]; cbn [append]; [reflexivity|].
    f_equal. exact IH.
Qed.

(** X1.  Every ship of a batch is generated from its own seed: the seed
    [str(i * 7777 + 42)] is never empty, so the stream is always reseeded,
    and two indices have the same seed only if they are equal. *)
Theorem ship_seeds_distinct_nonempty (i j : N) :
  truthy (ship_seed i) = true /\ (ship_seed i = ship_seed j <-> i = j).
Proof.
  split; [apply str_nonempty|]. split.
  - unfold ship_seed. intro E. apply str_inj in E. lia.
  - intros ->. reflexivity.
Qed.

(** X2.  Two ships of a batch are written to the same path only if they
    have the same index, whatever the script's directory. *)
Theorem output_paths_distinct (DIR : string) (i j : N) :
  output_path DIR i = output_path DIR j <-> i = j.
Proof.
  split; [|intros ->; reflexivity].
  destruct (output_path_shape DIR) as [prefix Hshape].
  rewrite !Hshape. intro E.
  apply append_cancel_l, append_cancel_r in E. apply str_inj. exact E.
Qed.







Section DriverClaims.

Context {G : Type} {RS : RandomSource G}.

Variable world_bbox : Object -> list Vector.
Variable DIR : string.

Lemma reseeded_ship (i : N) (g : G) :
  generate_starfighter (ship_seed i) g =
    generate_starfighter (ship_seed i) (seed_state (ship_seed i)).
Proof.
  unfold generate_starfighter, ship_seed. rewrite str_nonempty. reflexivity.
Qed.

(** X4.  The batch does not depend on the random stream it starts from:
    as soon as there is one ship to build, [main]'s loop exports the same
    files, stops on the same exception and leaves the same stream. *)
Theorem batch_ignores_initial_stream (i : N) (rest : list N) (g1 g2 : G) :
  main_loop world_bbox DIR (i :: rest) g1 = main_loop world_bbox DIR (i :: rest) g2
  /\ main world_bbox DIR g1 = main world_bbox DIR g2.
Proof.
  assert (Hstep : forall j js, main_loop world_bbox DIR (j :: js) g1 =
                               main_loop world_bbox DIR (j :: js) g2).
  { intros j js. cbn [main_loop].
    rewrite (reseeded_ship j g1), (reseeded_ship j g2). reflexivity. }
  split; [apply Hstep|]. unfold main. cbn [num_ships range seq map]. apply Hstep.
Qed.

(** X5.  The loop of [main] exports the ships of a prefix of the indices,
    in order.  The ship for index [i] is the one its own seed determines,
    whatever was generated before it; it is written to the path of [i]
    with the scale computed from its bounding box.  The loop covers all
    indices unless a scale computation raised, and then it stopped at the
    first index whose ship raised. *)
Theorem batch_exports (indices : list N) (g : G) :
  let ship := fun i =>
    fst (generate_starfighter (ship_seed i) (seed_state (ship_seed i))) in
  let result := fst (main_loop world_bbox DIR indices g) in
  exists k : nat,
    Forall2 (fun e i =>
               filepath e = output_path DIR i
               /\ exported e = ship i
               /\ scale_factor (world_bbox (ship i)) = Ok (object_scale e))
            (fst result) (firstn k indices)
    /\ match snd result with
       | None => k = List.length indices
       | Some e =>
           (k < List.length indices)%nat
           /\ scale_factor (world_bbox (ship (nth k indices 0%N))) = Raise e
       end.
Proof.
  cbv zeta. revert g.
  induction indices as [|i rest IH]; intro g.
  - exists 0%nat. cbn. split; [constructor | reflexivity].
  - cbn [main_loop]. rewrite (reseeded_ship i g).
    destruct (generate_starfighter (ship_seed i) (seed_state (ship_seed i)))
      as [obj g'] eqn:Egen. cbn [fst].
    destruct (scale_factor (world_bbox obj)) as [factor|e] eqn:Escale.
    + destruct (IH g') as [k [Hall Herr]].
      destruct (main_loop world_bbox DIR rest g') as [[exports err] g''].
      cbn [fst snd] in *. exists (S k). cbn [firstn]. split.
      * constructor; [|exact Hall]. cbn [filepath exported object_scale].
        rewrite Egen. cbn [fst]. repeat split. exact Escale.
      * destruct err as [e|]; cbn [List.length nth].
        -- destruct Herr as [Hk He]. split; [lia | exact He].
        -- lia.
    + exists 0%nat. cbn [fst snd firstn nth List.length]. split; [constructor|].
      rewrite Egen. cbn [fst]. split; [lia | exact Escale].
Qed.

End DriverClaims.

(** ** Properties of the whole ship *)

(** As [appends_walk], for a generator whose result matters: the goal for
    the value a [ret] returns is left to the caller. *)
Ltac appends_walk_post :=
  repeat (cbv beta zeta in *;
    lazymatch goal with
    | |- appends _ _ (bind (if ?b then _ else _) _) =>
        eapply appends_bind; [destruct b; appends_leaf | intros ? ?]
    | |- appends _ _ (bind _ _) =>
        eapply appends_bind; [appends_leaf | intros ? ?]
    | |- appends _ _ (for_each _ _) => apply appends_for_each; intros ? ?
    | |- appends _ _ (ret _) => apply appends_ret
    | |- appends _ _ (add_to_mesh _ _) => apply appends_add_to_mesh
    | |- appends _ _ (emit _) => apply appends_emit
    | |- appends _ _ (if ?b then _ else _) => destruct b
    end).

(** As [appends_walk], also through branches that are not the last step. *)
Ltac appends_walk_deep :=
  repeat (cbv beta in *;
    lazymatch goal with
    | |- appends _ _ (bind (if ?b then _ else _) _) =>
        eapply appends_bind; [destruct b | intros ? ?]
    | |- appends _ _ (bind _ _) =>
        eapply appends_bind; [appends_leaf | intros ? ?]
    | |- appends _ _ (for_each _ _) => apply appends_for_each; intros ? ?
    | |- appends _ _ (ret _) => apply appends_ret; exact I
    | |- appends _ _ (add_to_mesh _ _) => apply appends_add_to_mesh
    | |- appends _ _ (emit _) => apply appends_emit
    | |- appends _ _ (if ?b then _ else _) => destruct b
    end).



Section ShipInvariants.

Context {G : Type} {RS : RandomSource G}.




(** The radius and length the placement hands to the loop. *)
Lemma engine_placement_sizes inv (engine_style : EngineStyle) (wing_style : WingStyle)
    (engine_radius engine_length : Q) :
  0 <= engine_radius -> 0 <= engine_length ->
  appends inv
    (fun placed =>
       engine_radius <= snd (fst placed) <= engine_radius * 2
       /\ engine_length <= snd placed <= engine_length * 1.5)
    (engine_placement engine_style wing_style engine_radius engine_length).
Proof.
  intros Hr Hl.
  destruct engine_style, wing_style; unfold engine_placement;
    cbn [is_rear is_vertical orb]; appends_walk_post; cbn [fst snd]; lra.
Qed.

Lemma add_engines_appends inv (wing_style : WingStyle) :
  (forall engine_radius engine_length pos,
      0.1 <= engine_radius <= 0.5 -> 0.3 <= engine_length <= 0.9 ->
      appends (G := G) inv (fun _ => True)
        (add_engine engine_radius engine_length pos)) ->
  appends inv (fun _ => True) (add_engines wing_style).
Proof.
  intro Hbody. unfold add_engines.
  eapply appends_bind; [apply appends_choice | intros engine_style _].
  eapply appends_bind; [apply appends_uniform; lra | intros r Hr].
  eapply appends_bind; [apply appends_uniform; lra | intros l Hl].
  cbv beta in *.
  eapply appends_bind;
    [apply (engine_placement_sizes inv engine_style wing_style r l); lra|].
  intros [[positions r'] l'] [Hr' Hl']. cbn [fst snd] in *.
  apply appends_for_each. intros pos _. apply Hbody; lra.
Qed.




Lemma generated_mesh (random_seed : string) (g : G) :
  exists g0 : G,
    mesh (fst (generate_starfighter random_seed g)) = snd (snd (build_ship (g0, []))).
Proof.
  unfold generate_starfighter. destruct (truthy random_seed).
  - exists (seed_state random_seed). cbn [seed snd fst].
    destruct (create_materials _). reflexivity.
  - exists g. destruct (create_materials _). reflexivity.
Qed.


Lemma add_engines_calls (wing_style : WingStyle) :
  appends engine_call (fun _ => True) (add_engines wing_style).
Proof.
  apply add_engines_appends. intros r l pos Hr Hl.
  unfold add_engine; appends_walk; cbn [engine_call];
    try (left; reflexivity); try (right; reflexivity);
    repeat split; lra.
Qed.

Lemma add_details_calls : appends detail_call (fun _ => True) add_details.
Proof.
  unfold add_details; appends_walk_deep; cbn [detail_call];
    try (left; reflexivity); try (right; reflexivity);
    repeat split; auto; lra.
Qed.

End ShipInvariants.

(** ** Counting what a generator adds *)

Ltac adds_run :=
  run_gen; repeat rewrite <- app_assoc; cbn [app];
  eexists; (split; [first [reflexivity | symmetry; apply app_nil_r]
                   | vm_compute; lia]).

Section Counting.

Context {G : Type} {RS : RandomSource G}.

Lemma adds_bind {A B} (p : BMOp -> bool) (lo1 hi1 lo2 hi2 : nat)
    (m : Gen G A) (f : A -> Gen G B) :
  adds p lo1 hi1 m ->
  (forall a, adds p lo2 hi2 (f a)) ->
  adds p (lo1 + lo2) (hi1 + hi2) (bind m f).
Proof.
  intros Hm Hf w. unfold bind.
  destruct (Hm w) as [new1 [E1 C1]].
  destruct (m w) as [a w1]. cbn [fst snd] in *.
  destruct (Hf a w1) as [new2 [E2 C2]].
  exists (new1 ++ new2). split.
  - rewrite E2, E1, app_assoc. reflexivity.
  - rewrite count_app. lia.
Qed.

Lemma adds_none {A} (p : BMOp -> bool) (inv : BMOp -> Prop) (post : A -> Prop)
    (m : Gen G A) :
  appends inv post m -> (forall op, inv op -> p op = false) -> adds p 0 0 m.
Proof.
  intros Hm Hp w. destruct (Hm w) as [_ [new [E F]]].
  exists new. split; [exact E|].
  assert (Hc : count p new = 0%nat).
  { clear E. unfold count. induction F as [|op ops Hop _ IH]; cbn [filter]; [reflexivity|].
    rewrite (Hp op Hop). exact IH. }
  lia.
Qed.

Lemma tag_in_not (P : Material -> Prop) (m : Material) (op : BMOp) :
  (forall m', P m' -> m' <> m) -> tag_in P op -> is_tag m op = false.
Proof.
  intros HP Hop. destruct op; cbn [is_tag]; try reflexivity.
  cbn [tag_in] in Hop. unfold Material_eqb.
  apply Nat.eqb_neq. intro E. apply (HP _ Hop).
  destruct m0, m; cbn in E; congruence.
Qed.

Lemma fuselage_body_tags (style : FuselageStyle) :
  appends (tag_in (fun m => m = hull)) (fun _ => True) (fuselage_body style).
Proof.
  destruct style; unfold fuselage_body; appends_walk; cbn [tag_in];
    try exact I; reflexivity.
Qed.

Lemma add_cockpit_canopy_tags (fuselage_style : FuselageStyle) :
  appends (tag_in (fun m => m = cockpit)) (fun _ => True)
    (add_cockpit_canopy fuselage_style).
Proof.
  destruct fuselage_style; unfold add_cockpit_canopy; appends_walk; cbn [tag_in];
    try exact I; reflexivity.
Qed.

Lemma engine_call_tags (op : BMOp) :
  engine_call op -> tag_in (fun m => m = hull_dark \/ m = engine_glow) op.
Proof.
  destruct op; cbn [engine_call tag_in]; auto.
Qed.

Lemma detail_call_tags (op : BMOp) :
  detail_call op -> tag_in (fun m => m = hull_dark \/ m = hull_accent) op.
Proof.
  destruct op; cbn [detail_call tag_in]; auto.
Qed.

Lemma engine_call_no_tag (mat : Material) (op : BMOp) :
  mat <> hull_dark -> mat <> engine_glow -> engine_call op -> is_tag mat op = false.
Proof.
  intros H1 H2 Hop.
  apply (tag_in_not (fun m => m = hull_dark \/ m = engine_glow));
    [|apply engine_call_tags; exact Hop].
  intros m' [-> | ->] E; [apply H1 | apply H2]; symmetry; exact E.
Qed.

Lemma detail_call_no_tag (mat : Material) (op : BMOp) :
  mat <> hull_dark -> mat <> hull_accent -> detail_call op -> is_tag mat op = false.
Proof.
  intros H1 H2 Hop.
  apply (tag_in_not (fun m => m = hull_dark \/ m = hull_accent));
    [|apply detail_call_tags; exact Hop].
  intros m' [-> | ->] E; [apply H1 | apply H2]; symmetry; exact E.
Qed.

Lemma fuselage_body_hull (style : FuselageStyle) :
  adds (is_tag hull) 1 2 (fuselage_body style).
Proof.
  intros [g bm]. destruct style; unfold fuselage_body; adds_run.
Qed.

Lemma fuselage_body_solids (style : FuselageStyle) :
  adds is_solid 1 2 (fuselage_body style).
Proof.
  intros [g bm]. destruct style; unfold fuselage_body; adds_run.
Qed.

Lemma add_cockpit_canopy_cockpit (fuselage_style : FuselageStyle) :
  adds (is_tag cockpit) 0 1 (add_cockpit_canopy fuselage_style).
Proof.
  intros [g bm]. destruct fuselage_style; unfold add_cockpit_canopy; adds_run.
Qed.

Lemma wings_body_hull (wing_style : WingStyle) :
  adds (is_tag hull) 0 2 (wings_body wing_style).
Proof.
  intros [g bm]. destruct wing_style; unfold wings_body; cbn [range seq]; adds_run.
Qed.

Lemma adds_appended {A} (p : BMOp -> bool) (lo hi : nat) (m : Gen G A) (w : World G) :
  adds p lo hi m -> (lo <= count p (appended m w) <= hi)%nat.
Proof.
  intro Hm. destruct (Hm w) as [new [E C]].
  rewrite (appended_eq m w new E). exact C.
Qed.

Lemma adds_without_tag {A} (P : Material -> Prop) (mat : Material)
    (post : A -> Prop) (m : Gen G A) :
  appends (tag_in P) post m -> (forall m', P m' -> m' <> mat) ->
  adds (is_tag mat) 0 0 m.
Proof.
  intros Hm HP. apply (adds_none _ _ _ _ Hm).
  intros op Hop. apply (tag_in_not P); assumption.
Qed.

Lemma adds_choice {A} (p : BMOp -> bool) (x : A) (xs : list A) :
  adds p 0 0 (choice x xs).
Proof.
  apply (adds_none p (fun _ => False) _ _ (appends_choice _ x xs)).
  intros op [].
Qed.

Lemma adds_ret {A} (p : BMOp -> bool) (a : A) : adds (G := G) p 0 0 (ret a).
Proof.
  apply (adds_none p (fun _ => False) (fun _ => True)).
  - apply appends_ret. exact I.
  - intros op [].
Qed.

Lemma create_fuselage_adds (p : BMOp -> bool) (lo hi : nat) :
  (forall style, adds p lo hi (fuselage_body style)) ->
  adds p lo hi create_fuselage.
Proof.
  intro Hbody. unfold create_fuselage.
  apply (adds_bind p 0 0 lo hi); [apply adds_choice | intro style].
  replace lo with (lo + 0)%nat by lia. replace hi with (hi + 0)%nat by lia.
  apply adds_bind; [apply Hbody | intros _; apply adds_ret].
Qed.

Lemma add_wings_adds (p : BMOp -> bool) (lo hi : nat) :
  (forall wing_style, adds p lo hi (wings_body wing_style)) ->
  adds p lo hi add_wings.
Proof.
  intro Hbody. unfold add_wings.
  apply (adds_bind p 0 0 lo hi); [apply adds_choice | intro wing_style].
  replace lo with (lo + 0)%nat by lia. replace hi with (hi + 0)%nat by lia.
  apply adds_bind; [apply Hbody | intros _; apply adds_ret].
Qed.

Lemma engine_positions_bounds (engine_style : EngineStyle) (wing_style : WingStyle)
    (engine_radius engine_length : Q) (w : World G) :
  (1 <= List.length (fst (fst (fst (engine_placement engine_style wing_style
                                      engine_radius engine_length w)))) <= 6)%nat.
Proof.
  destruct (is_rear engine_style || is_vertical wing_style) eqn:Hb.
  - pose proof (rear_positions_length engine_style wing_style
                  engine_radius engine_length w Hb) as Hn.
    cbv zeta in Hn. lia.
  - destruct w as [g bm].
    destruct engine_style, wing_style; try discriminate Hb;
      unfold engine_placement; cbn [is_rear is_vertical orb]; run_gen;
      cbn [fst List.length app]; lia.
Qed.

Lemma add_engines_glows (wing_style : WingStyle) :
  adds (is_tag engine_glow) 1 6 (add_engines wing_style).
Proof.
  intro w.
  destruct (add_engines_calls wing_style w) as [_ [new [E _]]].
  exists new. split; [exact E|].
  destruct (add_engines_pairs wing_style w) as [r [l [w' Hpairs]]].
  cbv zeta in Hpairs. destruct Hpairs as [new' [Happ [_ [_ Hglow]]]].
  rewrite (appended_eq _ w new E) in Happ. subst new'. rewrite Hglow.
  apply engine_positions_bounds.
Qed.

Lemma build_ship_adds (p : BMOp -> bool) (f1 f2 c1 c2 w1 w2 e1 e2 d1 d2 : nat) :
  (forall style, adds p f1 f2 (fuselage_body style)) ->
  (forall style, adds p c1 c2 (add_cockpit_canopy style)) ->
  (forall style, adds p w1 w2 (wings_body style)) ->
  (forall style, adds p e1 e2 (add_engines style)) ->
  adds p d1 d2 add_details ->
  adds p (f1 + (c1 + (w1 + (e1 + d1)))) (f2 + (c2 + (w2 + (e2 + d2)))) build_ship.
Proof.
  intros Hf Hc Hw He Hd. unfold build_ship.
  apply adds_bind; [apply create_fuselage_adds; exact Hf | intro fuselage_style].
  apply adds_bind; [apply Hc | intros _].
  apply adds_bind; [apply add_wings_adds; exact Hw | intro wing_style].
  apply adds_bind; [apply He | intros _; exact Hd].
Qed.

(** X9.  Whatever the seed and the stream, a generated ship carries
    between one and six engine glows, at most one canopy, and between one
    and four parts tagged [hull]. *)
Theorem ship_part_counts (random_seed : string) (g : G) :
  let m := mesh (fst (generate_starfighter random_seed g)) in
  (1 <= count (is_tag engine_glow) m <= 6)%nat
  /\ (count (is_tag cockpit) m <= 1)%nat
  /\ (1 <= count (is_tag hull) m <= 4)%nat.
Proof.
  cbv zeta. destruct (generated_mesh random_seed g) as [g0 ->].
  assert (Hglow : adds (is_tag engine_glow) 1 6 build_ship).
  { apply (build_ship_adds _ 0 0 0 0 0 0 1 6 0 0).
    - intro s. apply (adds_without_tag _ _ _ _ (fuselage_body_tags s)).
      intros m ->. discriminate.
    - intro s. apply (adds_without_tag _ _ _ _ (add_cockpit_canopy_tags s)).
      intros m ->. discriminate.
    - intro s. apply (adds_without_tag _ _ _ _ (wings_body_no_glow_no_cockpit s)).
      intros m [H _]. exact H.
    - apply add_engines_glows.
    - apply (adds_none _ _ _ _ add_details_calls).
      intros op Hop. apply (detail_call_no_tag _ op); [discriminate | discriminate | exact Hop]. }
  assert (Hcockpit : adds (is_tag cockpit) 0 1 build_ship).
  { apply (build_ship_adds _ 0 0 0 1 0 0 0 0 0 0).
    - intro s. apply (adds_without_tag _ _ _ _ (fuselage_body_tags s)).
      intros m ->. discriminate.
    - apply add_cockpit_canopy_cockpit.
    - intro s. apply (adds_without_tag _ _ _ _ (wings_body_no_glow_no_cockpit s)).
      intros m [_ H]. exact H.
    - intro s. apply (adds_none _ _ _ _ (add_engines_calls s)).
      intros op Hop. apply (engine_call_no_tag _ op); [discriminate | discriminate | exact Hop].
    - apply (adds_none _ _ _ _ add_details_calls).
      intros op Hop. apply (detail_call_no_tag _ op); [discriminate | discriminate | exact Hop]. }
  assert (Hhull : adds (is_tag hull) 1 4 build_ship).
  { apply (build_ship_adds _ 1 2 0 0 0 2 0 0 0 0).
    - apply fuselage_body_hull.
    - intro s. apply (adds_without_tag _ _ _ _ (add_cockpit_canopy_tags s)).
      intros m ->. discriminate.
    - apply wings_body_hull.
    - intro s. apply (adds_none _ _ _ _ (add_engines_calls s)).
      intros op Hop. apply (engine_call_no_tag _ op); [discriminate | discriminate | exact Hop].
    - apply (adds_none _ _ _ _ add_details_calls).
      intros op Hop. apply (detail_call_no_tag _ op); [discriminate | discriminate | exact Hop]. }
  pose proof (adds_appended _ _ _ _ (g0, []) Hglow) as H1.
  pose proof (adds_appended _ _ _ _ (g0, []) Hcockpit) as H2.
  pose proof (adds_appended _ _ _ _ (g0, []) Hhull) as H3.
  unfold appended in H1, H2, H3. cbn [snd List.length skipn] in H1, H2, H3.
  repeat split; lia.
Qed.

Lemma add_details_cones : adds is_cone 0 5 add_details.
Proof.
  intros [g bm]. unfold add_details. adds_run.
Qed.

(** X7.  The engine generator puts nothing on the mesh but engine cones
    and their tags: every cone is capped, has 12 sides, tapers (its second
    radius is positive and smaller than its first, which is at most 0.5)
    and is at most 0.9 deep; every tag is [hull_dark] or [engine_glow].
    It builds between one and six engines, each a housing tagged
    [hull_dark] and a glow tagged [engine_glow]. *)
Theorem engines_only_tapered_cones (wing_style : WingStyle) (w : World G) :
  Forall engine_call (appended (add_engines wing_style) w)
  /\ exists n : nat,
       (1 <= n <= 6)%nat
       /\ count is_cone (appended (add_engines wing_style) w) = (2 * n)%nat
       /\ count (is_tag hull_dark) (appended (add_engines wing_style) w) = n
       /\ count (is_tag engine_glow) (appended (add_engines wing_style) w) = n.
Proof.
  split.
  - eapply appends_appended. apply add_engines_calls.
  - destruct (add_engines_pairs wing_style w) as [r [l [w' Hpairs]]].
    cbv zeta in Hpairs. destruct Hpairs as [new [-> [C1 [C2 C3]]]].
    eexists. split; [|split; [exact C1 | split; [exact C2 | exact C3]]].
    apply engine_positions_bounds.
Qed.

(** X8.  The detail generator puts nothing on the mesh but capped cones of
    6 or 8 sides, with radii at most 0.1 and depth at most 0.8, tagged
    [hull_dark] or [hull_accent]; it builds at most five of them. *)
Theorem details_only_small_cones (w : World G) :
  Forall detail_call (appended add_details w)
  /\ (count is_cone (appended add_details w) <= 5)%nat.
Proof.
  split.
  - eapply appends_appended. apply add_details_calls.
  - pose proof (adds_appended _ _ _ _ w add_details_cones). lia.
Qed.

(** X10.  The fuselage generator builds one or two solids, whatever style
    it draws, and tags nothing but [hull]. *)
Theorem fuselage_is_hull (w : World G) :
  (1 <= count is_solid (appended create_fuselage w) <= 2)%nat
  /\ (1 <= count (is_tag hull) (appended create_fuselage w) <= 2)%nat
  /\ Forall (fun m => m = hull) (tags (appended create_fuselage w)).
Proof.
  split; [|split].
  - apply adds_appended. apply create_fuselage_adds. apply fuselage_body_solids.
  - apply adds_appended. apply create_fuselage_adds. apply fuselage_body_hull.
  - apply Forall_tags. eapply appends_appended with (post := fun _ => True).
    unfold create_fuselage.
    eapply appends_bind; [apply appends_choice | intros style _].
    eapply appends_bind; [apply fuselage_body_tags | intros _ _].
    apply appends_ret. exact I.
Qed.

End Counting.

(** ** Properties of the material palette *)

Lemma Qltb_true (x y : Q) : Qltb x y = true -> x < y.
Proof.
  unfold Qltb. rewrite negb_true_iff. intro H.
  apply Qnot_le_lt. intro Hle. apply Qle_bool_iff in Hle. congruence.
Qed.

Lemma Qltb_false (x y : Q) : Qltb x y = false -> y <= x.
Proof.
  unfold Qltb. rewrite negb_false_iff. apply Qle_bool_iff.
Qed.

Lemma Qmod1_range (x : Q) : 0 <= Qmod1 x < 1.
Proof.
  unfold Qmod1.
  pose proof (Qfloor_le x) as Hlo. pose proof (Qlt_floor x) as Hhi.
  rewrite inject_Z_plus in Hhi.
  change (inject_Z 1) with 1 in Hhi. split; lra.
Qed.

Lemma hls_v_range (m1 m2 hue : Q) : m1 <= m2 -> m1 <= hls_v m1 m2 hue <= m2.
Proof.
  intro Hm. unfold hls_v.
  pose proof (Qmod1_range hue) as Hh.
  generalize dependent (Qmod1 hue). intros h Hh.
  unfold ONE_SIXTH, TWO_THIRD.
  destruct (Qltb h (1 # 6)) eqn:E1.
  - apply Qltb_true in E1. split; nra.
  - destruct (Qltb h 0.5) eqn:E2; [split; lra|].
    destruct (Qltb h (2 # 3)) eqn:E3; [|split; lra].
    apply Qltb_true in E3. apply Qltb_false in E2. split; nra.
Qed.

Lemma hls_to_rgb_valid (h l s a : Q) :
  0 <= l <= 1 -> 0 <= s <= 1 -> 0 <= a <= 1 ->
  valid_color (with_alpha (hls_to_rgb h l s) a).
Proof.
  intros Hl Hs Ha. unfold hls_to_rgb.
  destruct (Qeq_bool s 0.0).
  - cbn [with_alpha]. unfold valid_color. cbn [red green blue alpha].
    repeat split; lra.
  - set (m2 := if Qle_bool l 0.5 then l * (1.0 + s) else l + s - l * s).
    assert (Hm2 : l <= m2 <= 1 /\ 0 <= 2.0 * l - m2).
    { unfold m2. destruct (Qle_bool l 0.5) eqn:El.
      - apply Qle_bool_iff in El. repeat split; nra.
      - assert (0.5 < l).
        { apply Qnot_le_lt. intro H. apply Qle_bool_iff in H. congruence. }
        repeat split; nra. }
    clearbody m2. destruct Hm2 as [[H1 H2] H3].
    assert (Hm : 2.0 * l - m2 <= m2) by lra.
    pose proof (hls_v_range _ _ (h + ONE_THIRD) Hm).
    pose proof (hls_v_range _ _ h Hm).
    pose proof (hls_v_range _ _ (h - ONE_THIRD) Hm).
    cbn [with_alpha]. unfold valid_color. cbn [red green blue alpha].
    repeat split; lra.
Qed.

Section PaletteClaims.

Context {G : Type} {RS : RandomSource G}.

Lemma create_materials_post :
  appends (fun _ => False)
    (fun ms => map name ms = all_materials /\ Forall valid_material ms)
    create_materials.
Proof.
  unfold create_materials. appends_walk_post.
  cbn [map all_materials name]. split; [reflexivity|].
  match goal with
  | |- context [with_alpha (hls_to_rgb ?h ?l ?s) ?a] =>
      pose proof (hls_to_rgb_valid h l s a ltac:(lra) ltac:(lra) ltac:(lra)) as Hhull;
      generalize dependent (with_alpha (hls_to_rgb h l s) a); intros hull_base Hhull
  end.
  match goal with
  | |- context [with_alpha (hls_to_rgb ?h ?l ?s) ?a] =>
      pose proof (hls_to_rgb_valid h l s a ltac:(lra) ltac:(lra) ltac:(lra)) as Haccent;
      generalize dependent (with_alpha (hls_to_rgb h l s) a); intros accent Haccent
  end.
  match goal with
  | |- context [with_alpha (hls_to_rgb ?h ?l ?s) ?a] =>
      pose proof (hls_to_rgb_valid h l s a ltac:(lra) ltac:(lra) ltac:(lra)) as Hglow;
      generalize dependent (with_alpha (hls_to_rgb h l s) a); intros glow Hglow
  end.
  unfold valid_color in Hhull.
  repeat apply Forall_cons; try apply Forall_nil;
    unfold valid_material; cbn [base_color emission_color];
    try (split; [assumption | exact I]);
    try (split; assumption).
  - split; [|exact I]. unfold valid_color. cbn [red green blue alpha].
    repeat split; lra.
  - split; [|exact I]. unfold valid_color. cbn [red green blue alpha].
    repeat split; lra.
Qed.

(** X11.  The palette has one material per member of [Material], in the
    order of the enumeration, so the material index a face is tagged with
    is the slot of that material: slot [material_index m] holds the
    material named [m].  Building the palette puts nothing on the mesh. *)
Theorem palette_slots_match_indices (w : World G) (m : Material) :
  map name (fst (create_materials w)) = all_materials
  /\ (exists b, nth_error (fst (create_materials w)) (material_index m) = Some b
                /\ name b = m)
  /\ snd (snd (create_materials w)) = snd w.
Proof.
  destruct (create_materials_post w) as [[Hnames _] _].
  split; [exact Hnames|]. split.
  - assert (Hnth : nth_error (map name (fst (create_materials w))) (material_index m)
                   = Some m).
    { rewrite Hnames. destruct m; reflexivity. }
    rewrite nth_error_map in Hnth.
    destruct (nth_error (fst (create_materials w)) (material_index m)) as [b|];
      [|discriminate].
    exists b. split; [reflexivity|]. cbn in Hnth. congruence.
  - apply (appends_nothing _ _ create_materials_post).
Qed.

(** X12.  Every colour of the palette is a valid colour: for every stream,
    the red, green, blue and alpha of each base colour and of the glow's
    emission colour lie between 0 and 1. *)
Theorem palette_colors_valid (w : World G) :
  Forall valid_material (fst (create_materials w)).
Proof.
  destruct (create_materials_post w) as [[_ Hvalid] _]. exact Hvalid.
Qed.

(** X16.  Every generated ship carries the five materials of [Material]
    in the order of the enumeration, each with valid colours, whatever
    the seed and the stream. *)
Theorem ship_materials_complete (random_seed : string) (g : G) :
  map name (materials (fst (generate_starfighter random_seed g))) = all_materials
  /\ Forall valid_material (materials (fst (generate_starfighter random_seed g))).
Proof.
  unfold generate_starfighter.
  match goal with
  | |- context [create_materials ?w] =>
      destruct (create_materials_post w) as [Hpost _];
      destruct (create_materials w) as [ms w']
  end.
  cbn [fst materials] in *. exact Hpost.
Qed.

End PaletteClaims.

(** ** More on wings and engines *)

Section LayoutClaims.

Context {G : Type} {RS : RandomSource G}.

(** X13.  The x-wing style builds exactly four panels of one size (width
    in [0.6, 1], thickness in [0.03, 0.08], length in [1.5, 2.5]), each
    placed half its length along z before it is turned about the x axis
    by +s, -s, -s and +s degrees for one spread angle s in [15, 35]; the
    panels are tagged [hull] and [hull_accent] in turn. *)
Theorem x_wing_four_panels (w : World G) :
  exists wing_length wing_width wing_thickness spread_angle : Q,
    1.5 <= wing_length <= 2.5 /\ 0.6 <= wing_width <= 1.0
    /\ 0.03 <= wing_thickness <= 0.08 /\ 15 <= spread_angle <= 35
    /\ count is_solid (appended (wings_body x_wing) w) = 4%nat
    /\ Forall (x_wing_panel wing_length wing_width wing_thickness)
         (appended (wings_body x_wing) w)
    /\ Forall2 Qeq (rotations (appended (wings_body x_wing) w))
         [spread_angle; - spread_angle; - spread_angle; spread_angle]
    /\ tags (appended (wings_body x_wing) w) = [hull; hull_accent; hull; hull_accent].
Proof.
  destruct w as [g bm]. unfold wings_body. cbn [range seq]. run_appended.
  cbn [Nat.ltb Nat.leb Nat.eqb Nat.modulo Nat.divmod fst snd Nat.sub].
  exists (1.5 + (2.5 - 1.5) * r), (0.6 + (1.0 - 0.6) * r0),
         (0.03 + (0.08 - 0.03) * r1), (15 + (35 - 15) * r2).
  split; [lra|]. split; [lra|]. split; [lra|]. split; [lra|].
  split; [reflexivity|]. split; [|split].
  - repeat (apply Forall_cons || apply Forall_nil); cbn [x_wing_panel]; try exact I;
      (split; [reflexivity|]); eexists; (split; [|reflexivity]); lra.
  - cbn [rotations degrees]. repeat constructor; ring.
  - reflexivity.
Qed.

Ltac literal_sides :=
  cbn [for_each]; cbv beta;
  change (Qgtb (-1) 0) with false; change (Qgtb 1 0) with true; cbv iota.

(** X14.  Swept and delta wings are built as a mirrored pair: the outline
    of the second wing is the first one reflected in the plane z = 0, and
    the face of the first wing lists its vertices in reverse order, the
    face of the second one in the order they were made.  Each outline has
    one face, over all of its vertices (four for swept, three for
    delta). *)
Theorem wing_pair_mirrored (w : World G) :
  (exists vs1 vs2 cs1 cs2,
     vert_handles (List.length (snd w)) (appended (wings_body swept) w) = vs1 ++ vs2
     /\ vertices (appended (wings_body swept) w) = cs1 ++ cs2
     /\ List.length vs1 = 4%nat /\ List.length vs2 = 4%nat
     /\ Forall2 mirrored cs1 cs2
     /\ faces (appended (wings_body swept) w) = [rev vs1; vs2])
  /\
  (exists vs1 vs2 cs1 cs2,
     vert_handles (List.length (snd w)) (appended (wings_body delta) w) = vs1 ++ vs2
     /\ vertices (appended (wings_body delta) w) = cs1 ++ cs2
     /\ List.length vs1 = 3%nat /\ List.length vs2 = 3%nat
     /\ Forall2 mirrored cs1 cs2
     /\ faces (appended (wings_body delta) w) = [rev vs1; vs2]).
Proof.
  destruct w as [g bm]. cbn [snd]. split.
  - unfold wings_body. literal_sides. run_appended.
    cbn [vert_handles vertices faces rev app]. rewrite ?Nat.add_1_r.
    eexists [_; _; _; _], [_; _; _; _], [_; _; _; _], [_; _; _; _].
    split; [reflexivity|]. split; [reflexivity|].
    split; [reflexivity|]. split; [reflexivity|].
    split; [|cbn [rev app]; repeat f_equal; lia].
    repeat constructor; cbn [vx vy vz]; ring.
  - unfold wings_body. literal_sides. run_appended.
    cbn [vert_handles vertices faces rev app]. rewrite ?Nat.add_1_r.
    eexists [_; _; _], [_; _; _], [_; _; _], [_; _; _].
    split; [reflexivity|]. split; [reflexivity|].
    split; [reflexivity|]. split; [reflexivity|].
    split; [|cbn [rev app]; repeat f_equal; lia].
    repeat constructor; cbn [vx vy vz]; ring.
Qed.

(** X15.  The engines are laid out in balance: for every engine style and
    wing style the z coordinates of the positions sum to zero, so do the
    y coordinates, and every engine sits at x between -0.8 and 0.1. *)
Theorem engine_layout_balanced (engine_style : EngineStyle) (wing_style : WingStyle)
    (engine_radius engine_length : Q) (w : World G) :
  let positions :=
    fst (fst (fst (engine_placement engine_style wing_style
                     engine_radius engine_length w))) in
  sum_by vz positions == 0
  /\ sum_by vy positions == 0
  /\ Forall (fun p => -0.8 <= vx p <= 0.1) positions.
Proof.
  cbv zeta.
  destruct (is_rear engine_style || is_vertical wing_style) eqn:Hb.
  - rewrite (rear_placement _ _ _ _ _ Hb). cbn [fst].
    destruct (num_engines_choice w) as [-> | [-> | ->]];
      cbn [range seq map sum_by fold_right vx vy vz];
      (split; [vm_compute; reflexivity|]); (split; [vm_compute; reflexivity|]);
      repeat constructor; vm_compute; discriminate.
  - destruct w as [g bm].
    destruct engine_style, wing_style; try discriminate Hb;
      unfold engine_placement; cbn [is_rear is_vertical orb]; run_gen;
      cbn [fst app sum_by fold_right vx vy vz];
      (split; [ring|]); (split; [ring|]);
      repeat (apply Forall_cons || apply Forall_nil); cbn [vx]; lra.
Qed.

End LayoutClaims.

(** ** Parts of wings and engines *)

Section PartClaims.

Context {G : Type} {RS : RandomSource G}.

(** X17.  What each wing style builds, whatever the draws: x-wing four
    solids, vertical four, ring two, stub two, none of them any flat face;
    swept and delta no solid but two flat faces, each extruded once. *)
Theorem wing_part_counts (wing_style : WingStyle) (w : World G) :
  let new := appended (wings_body wing_style) w in
  (count is_solid new, count is_face new, count is_extrusion new) =
  match wing_style with
  | x_wing | vertical => (4, 0, 0)
  | ring | stub => (2, 0, 0)
  | swept | delta => (0, 2, 2)
  end%nat.
Proof.
  destruct w as [g bm]. cbv zeta.
  destruct wing_style; unfold wings_body; cbn [range seq]; run_appended; reflexivity.
Qed.

(** X18.  One engine is a housing and a glow recessed into it: the glow
    cone is centred half the engine length behind the housing, at the same
    height and side, its larger radius is smaller than the housing's
    smaller radius, and it is three tenths as deep. *)
Theorem glow_recessed_in_housing (engine_radius engine_length : Q) (pos : Vector)
    (w : World G) :
  0 < engine_radius -> 0 < engine_length ->
  exists housing glow tag1 tag2,
    appended (add_engine engine_radius engine_length pos) w = [housing; tag1; glow; tag2]
    /\ tags [housing; tag1; glow; tag2] = [hull_dark; engine_glow]
    /\ translation_of (placement housing) = pos
    /\ vx (translation_of (placement glow)) == vx pos - engine_length / 2
    /\ vy (translation_of (placement glow)) == vy pos
    /\ vz (translation_of (placement glow)) == vz pos
    /\ Forall (fun rg => Forall (fun rh => rg < rh) (radii housing)) (radii glow)
    /\ Forall2 (fun dg dh => dg == 0.3 * dh) (depths glow) (depths housing).
Proof.
  intros Hr Hl. destruct w as [g bm].
  unfold add_engine. run_appended.
  do 4 eexists. split; [reflexivity|].
  cbn [tags placement translation_of vadd vx vy vz radii depths].
  split; [reflexivity|]. split; [reflexivity|].
  split; [field|]. split; [ring|]. split; [ring|].
  split.
  - repeat constructor; lra.
  - repeat constructor. ring.
Qed.

End PartClaims.

(** X18 on an engine of radius 0.2 and length 0.4 at the rear. *)
Lemma glow_recessed_in_housing_witness :
  0 < 0.2 /\ 0 < 0.4
  /\ exists housing glow tag1 tag2,
       appended (add_engine 0.2 0.4 (Vec (-0.8) 0 0)) (([] : Script), []) =
         [housing; tag1; glow; tag2]
       /\ tags [housing; tag1; glow; tag2] = [hull_dark; engine_glow]
       /\ translation_of (placement housing) = Vec (-0.8) 0 0
       /\ vx (translation_of (placement glow)) == vx (Vec (-0.8) 0 0) - 0.4 / 2
       /\ vy (translation_of (placement glow)) == vy (Vec (-0.8) 0 0)
       /\ vz (translation_of (placement glow)) == vz (Vec (-0.8) 0 0)
       /\ Forall (fun rg => Forall (fun rh => rg < rh) (radii housing)) (radii glow)
       /\ Forall2 (fun dg dh => dg == 0.3 * dh) (depths glow) (depths housing).
Proof.
  split; [reflexivity|]. split; [reflexivity|].
  apply (glow_recessed_in_housing (G := Script) 0.2 0.4 (Vec (-0.8) 0 0) ([], []));
    reflexivity.
Defined.
